(** * go-ovirt-client: the client factory and its retrying disk removal

    A shallow embedding of [client_factory.go] (package [govirt]): the two
    validators, the TLS profile builder, the factory [New], the wrapper's
    accessors and the retry loop of [RemoveDisk], followed by the properties
    that the specification states about them.

    Go strings are byte sequences, modelled as [string] (a list of 8-bit
    [ascii]); [[]byte] is [list byte]; [map[string]string] is
    [gmap string string]; times and durations are nanoseconds in [N]. *)

From Stdlib Require Import Strings.String Strings.Ascii Strings.Byte List NArith ZArith Bool Arith Lia.
From stdpp Require Import gmap strings.
Import ListNotations.
Local Open Scope string_scope.

(* ===================================================================== *)
(** ** Go's [strings] package, as far as the validators use it           *)
(* ===================================================================== *)

Module strings.

(** [s[lo:hi]] *)
Definition slice (s : string) (lo hi : nat) : string :=
  substring lo (hi - lo) s.

(** [func HasPrefix(s, prefix string) bool {
      return len(s) >= len(prefix) && s[0:len(prefix)] == prefix }] *)
Definition HasPrefix (s prefix : string) : bool :=
  (String.length prefix <=? String.length s)%nat
  && String.eqb (slice s 0 (String.length prefix)) prefix.

(** [func HasSuffix(s, suffix string) bool {
      return len(s) >= len(suffix) && s[len(s)-len(suffix):] == suffix }] *)
Definition HasSuffix (s suffix : string) : bool :=
  (String.length suffix <=? String.length s)%nat
  && String.eqb
       (slice s (String.length s - String.length suffix) (String.length s))
       suffix.

(** [Index(s, substr)]: the position of the first occurrence of [substr]
    in [s]; Go's [-1] is [None]. *)
Definition Index (s substr : string) : option nat :=
  String.index 0 substr s.

(** The loop of [genSplit(s, sep, 0, n)] for a non-empty separator, with
    [k = n - 1 - i] cuts still allowed:
    [[
      for i < n {
          m := Index(s, sep)
          if m < 0 { break }
          a[i] = s[:m]
          s = s[m+len(sep):]
          i++
      }
      a[i] = s
    ]] *)
Fixpoint genSplit (k : nat) (s sep : string) : list string :=
  match k with
  | O => [s]
  | S k' =>
      match Index s sep with
      | None => [s]
      | Some m =>
          slice s 0 m
            :: genSplit k' (slice s (m + String.length sep) (String.length s)) sep
      end
  end.

(** [SplitN(s, sep, n)] for [n >= 0] and a non-empty [sep] (the only use
    in this package is [SplitN(username, "@", 2)]): [n == 0] gives [nil],
    and [n] is capped at [len(s) + 1] before the loop. *)
Definition SplitN (s sep : string) (n : nat) : list string :=
  match n with
  | O => []
  | S _ => genSplit (Nat.min n (String.length s + 1) - 1) s sep
  end.

(** [Count(s, c)] for a single byte [c]. *)
Fixpoint Count (s : string) (c : ascii) : nat :=
  match s with
  | EmptyString => 0
  | String a s' => (if Ascii.eqb a c then 1 else 0) + Count s' c
  end.

End strings.

(* ===================================================================== *)
(** ** Go errors                                                          *)
(* ===================================================================== *)

(** An [error] value is either a plain message ([errors.New], [fmt.Errorf]
    without [%w], or an error of a library outside this package) or a
    message that wraps a cause ([fmt.Errorf] with one [%w]). *)
Inductive error : Type :=
| errorString (msg : string)
| wrapError (msg : string) (err : error).

(** The [Error()] method. *)
Definition Error (e : error) : string :=
  match e with
  | errorString msg => msg
  | wrapError msg _ => msg
  end.

(** [errors.Unwrap]. *)
Definition Unwrap (e : error) : option error :=
  match e with
  | errorString _ => None
  | wrapError _ err => Some err
  end.

(** A Go function returning [(T, error)]. *)
Inductive result (T : Type) : Type :=
| Ok (v : T)
| Err (e : error).
Arguments Ok {T} v.
Arguments Err {T} e.

(* ===================================================================== *)
(** ** The validators                                                     *)
(* ===================================================================== *)

Definition errURLScheme : error :=
  errorString "URL must start with http:// or https://".

(** [[
      func validateURL(url string) error {
          if !strings.HasPrefix(url, "http://") && !strings.HasSuffix(url, "https://") {
              return fmt.Errorf("URL must start with http:// or https://")
          }
          return nil
      }
    ]] *)
Definition validateURL (url : string) : option error :=
  if negb (strings.HasPrefix url "http://") && negb (strings.HasSuffix url "https://")
  then Some errURLScheme
  else None.

Definition errUsernameAtSign : error :=
  errorString "username must contain exactly one @ sign (format should be admin@internal)".
Definition errUsernameNoUser : error :=
  errorString "no user supplied before @ sign in username (format should be admin@internal)".
Definition errUsernameNoScope : error :=
  errorString "no scope supplied after @ sign in username (format should be admin@internal)".

(** [[
      func validateUsername(username string) error {
          usernameParts := strings.SplitN(username, "@", 2)
          if len(usernameParts) != 2 { return fmt.Errorf("username must contain exactly one @ sign ...") }
          if len(usernameParts[0]) == 0 { return fmt.Errorf("no user supplied before @ sign ...") }
          if len(usernameParts[1]) == 0 { return fmt.Errorf("no scope supplied after @ sign ...") }
          return nil
      }
    ]] *)
Definition validateUsername (username : string) : option error :=
  let usernameParts := strings.SplitN username "@" 2 in
  if negb (List.length usernameParts =? 2)%nat then Some errUsernameAtSign
  else if (String.length (nth 0 usernameParts "") =? 0)%nat then Some errUsernameNoUser
  else if (String.length (nth 1 usernameParts "") =? 0)%nat then Some errUsernameNoScope
  else None.

(* ===================================================================== *)
(** ** The libraries the factory builds on                                *)
(* ===================================================================== *)

(** [crypto/tls]: the constants and the fields of [tls.Config] that
    [createTLSConfig] writes, and [RootCAs], which it leaves [nil].  The
    numbers are those of the Go standard library (the IANA registry). *)
Module tls.

Definition VersionTLS12 : Z := 0x0303.

Definition TLS_ECDHE_ECDSA_WITH_AES_128_GCM_SHA256 : Z := 0xc02b.
Definition TLS_ECDHE_RSA_WITH_AES_128_GCM_SHA256 : Z := 0xc02f.
Definition TLS_ECDHE_ECDSA_WITH_AES_256_GCM_SHA384 : Z := 0xc02c.
Definition TLS_ECDHE_RSA_WITH_AES_256_GCM_SHA384 : Z := 0xc030.
Definition TLS_ECDHE_RSA_WITH_CHACHA20_POLY1305 : Z := 0xcca8.
Definition TLS_ECDHE_ECDSA_WITH_CHACHA20_POLY1305 : Z := 0xcca9.

Definition CurveP256 : Z := 23.
Definition CurveP384 : Z := 24.

Record Config (CertPool : Type) : Type := {
  MinVersion : Z;
  CipherSuites : list Z;
  CurvePreferences : list Z;
  PreferServerCipherSuites : bool;
  InsecureSkipVerify : bool;
  RootCAs : option CertPool
}.
Arguments MinVersion {CertPool} _.
Arguments CipherSuites {CertPool} _.
Arguments CurvePreferences {CertPool} _.
Arguments PreferServerCipherSuites {CertPool} _.
Arguments InsecureSkipVerify {CertPool} _.
Arguments RootCAs {CertPool} _.

(** What a cipher suite number stands for: every suite named above does
    an ephemeral elliptic-curve Diffie-Hellman key exchange (ECDHE);
    they differ in the server certificate's key and in the AEAD. *)
Inductive Auth := ECDSA | RSA.
Inductive AEAD := AES_128_GCM | AES_256_GCM | CHACHA20_POLY1305.

Definition suiteInfo (id : Z) : option (Auth * AEAD) :=
  if (id =? TLS_ECDHE_ECDSA_WITH_AES_128_GCM_SHA256)%Z then Some (ECDSA, AES_128_GCM)
  else if (id =? TLS_ECDHE_RSA_WITH_AES_128_GCM_SHA256)%Z then Some (RSA, AES_128_GCM)
  else if (id =? TLS_ECDHE_ECDSA_WITH_AES_256_GCM_SHA384)%Z then Some (ECDSA, AES_256_GCM)
  else if (id =? TLS_ECDHE_RSA_WITH_AES_256_GCM_SHA384)%Z then Some (RSA, AES_256_GCM)
  else if (id =? TLS_ECDHE_ECDSA_WITH_CHACHA20_POLY1305)%Z then Some (ECDSA, CHACHA20_POLY1305)
  else if (id =? TLS_ECDHE_RSA_WITH_CHACHA20_POLY1305)%Z then Some (RSA, CHACHA20_POLY1305)
  else None.

End tls.

(** [net/http]: a client and its transport, with the one field set here. *)
Module http.

Record Transport (CertPool : Type) : Type := {
  TLSClientConfig : option (tls.Config CertPool)
}.
Arguments TLSClientConfig {CertPool} _.

Record Client (CertPool : Type) : Type := {
  Transport_ : option (Transport CertPool)
}.
Arguments Transport_ {CertPool} _.

End http.

(** [time]: a [Duration] counts nanoseconds. *)
Module time.
Definition Duration := N.
Definition Second : Duration := 1000000000%N.
End time.

(** [context]: what [RemoveDisk] observes of a [context.Context] is its
    [Done()] channel, which is closed at some instant or never. *)
Module context.
Record Context : Type := { doneAt : option N }.
End context.

(** [github.com/ovirt/go-ovirt]: the connection builder.  Each setter
    stores its argument; [Build] belongs to the SDK (see [Environment]). *)
Module ovirtsdk4.

Record ConnectionBuilder (LogFunc : Type) : Type := {
  url : option string;
  username : option string;
  password : option string;
  caFile : option string;
  caCert : option (list byte);
  insecure : option bool;
  logFunc : option LogFunc;
  headers : option (gmap string string)
}.
Arguments url {LogFunc} _.
Arguments username {LogFunc} _.
Arguments password {LogFunc} _.
Arguments caFile {LogFunc} _.
Arguments caCert {LogFunc} _.
Arguments insecure {LogFunc} _.
Arguments logFunc {LogFunc} _.
Arguments headers {LogFunc} _.

Section Builder.
Context {L : Type}.
#[local] Abbreviation builder := (ConnectionBuilder L).

Definition NewConnectionBuilder : builder :=
  {| url := None; username := None; password := None; caFile := None;
     caCert := None; insecure := None; logFunc := None; headers := None |}.

Definition URL (v : string) (b : builder) : builder :=
  {| url := Some v; username := username b; password := password b;
     caFile := caFile b; caCert := caCert b; insecure := insecure b;
     logFunc := logFunc b; headers := headers b |}.
Definition Username (v : string) (b : builder) : builder :=
  {| url := url b; username := Some v; password := password b;
     caFile := caFile b; caCert := caCert b; insecure := insecure b;
     logFunc := logFunc b; headers := headers b |}.
Definition Password (v : string) (b : builder) : builder :=
  {| url := url b; username := username b; password := Some v;
     caFile := caFile b; caCert := caCert b; insecure := insecure b;
     logFunc := logFunc b; headers := headers b |}.
Definition CAFile (v : string) (b : builder) : builder :=
  {| url := url b; username := username b; password := password b;
     caFile := Some v; caCert := caCert b; insecure := insecure b;
     logFunc := logFunc b; headers := headers b |}.
Definition CACert (v : list byte) (b : builder) : builder :=
  {| url := url b; username := username b; password := password b;
     caFile := caFile b; caCert := Some v; insecure := insecure b;
     logFunc := logFunc b; headers := headers b |}.
Definition Insecure (v : bool) (b : builder) : builder :=
  {| url := url b; username := username b; password := password b;
     caFile := caFile b; caCert := caCert b; insecure := Some v;
     logFunc := logFunc b; headers := headers b |}.
Definition LogFunc (v : L) (b : builder) : builder :=
  {| url := url b; username := username b; password := password b;
     caFile := caFile b; caCert := caCert b; insecure := insecure b;
     logFunc := Some v; headers := headers b |}.
Definition Headers (v : gmap string string) (b : builder) : builder :=
  {| url := url b; username := username b; password := password b;
     caFile := caFile b; caCert := caCert b; insecure := insecure b;
     logFunc := logFunc b; headers := Some v |}.
End Builder.

End ovirtsdk4.

(** Which case of a [select] over [time.After(d)] and [ctx.Done()] ran. *)
Inductive SelectCase : Type := TimerFired | CtxDone.

(** Everything outside this package that its functions call: the
    [Logger] interface's implementation, the host's trust store and file
    system ([crypto/x509], [io/ioutil]), the oVirt SDK, and the Go
    scheduler's choice between two channels that are ready at once. *)
Class Environment : Type := {
  (** a non-nil implementation of the [Logger] interface; the builder is
      handed its [Logf] method value *)
  Logger : Type;
  (** [*x509.CertPool] *)
  CertPool : Type;
  (** [x509.SystemCertPool()] *)
  SystemCertPool : result CertPool;
  (** [x509.NewCertPool()] *)
  NewCertPool : CertPool;
  (** [pool.AppendCertsFromPEM(pem)]: the pool afterwards, and [ok] *)
  AppendCertsFromPEM : CertPool -> list byte -> CertPool * bool;
  (** [ioutil.ReadFile(name)] *)
  ReadFile : string -> result (list byte);
  (** [*ovirtsdk4.Connection] *)
  Connection : Type;
  (** [connBuilder.Build()] *)
  Build : ovirtsdk4.ConnectionBuilder Logger -> result Connection;
  (** the engine's side of a connection *)
  SDKState : Type;
  (** [conn.SystemService().DisksService().DiskService(id).Remove().Send()]:
      the error or [nil], how long the request took, the engine afterwards *)
  RemoveSend : Connection -> string -> SDKState -> option error * time.Duration * SDKState;
  (** the scheduler's pick when both cases of the [select] are ready at
      the same instant *)
  selectBoth : N -> SelectCase
}.

(* ===================================================================== *)
(** ** The package [govirt]                                               *)
(* ===================================================================== *)

(** The error of each [fmt.Errorf] call of the package, named after the
    error kind it stands for. *)

(** [fmt.Errorf("invalid URL: %s (%w)", url, err)] *)
Definition InvalidURL (url : string) (err : error) : error :=
  wrapError ("invalid URL: " ++ url ++ " (" ++ Error err ++ ")") err.

(** [fmt.Errorf("invalid username: %s (%w)", username, err)] *)
Definition InvalidUsername (username : string) (err : error) : error :=
  wrapError ("invalid username: " ++ username ++ " (" ++ Error err ++ ")") err.

(** [fmt.Errorf("one of caFile, caCert, or insecure must be provided")] *)
Definition MissingTrustConfiguration : error :=
  errorString "one of caFile, caCert, or insecure must be provided".

(** [fmt.Errorf("failed to create underlying oVirt connection (%w)", err)] *)
Definition ConnectionBuildError (err : error) : error :=
  wrapError ("failed to create underlying oVirt connection (" ++ Error err ++ ")") err.

(** [fmt.Errorf("failed to create TLS configuration (%w)", err)] *)
Definition CertificateError (err : error) : error :=
  wrapError ("failed to create TLS configuration (" ++ Error err ++ ")") err.

(** [fmt.Errorf("the provided CA certificate is not a valid certificate in PEM format")] *)
Definition errInlineNotPEM : error :=
  errorString "the provided CA certificate is not a valid certificate in PEM format".

(** [fmt.Errorf("failed to read CA certificate from file %s (%w)", caFile, err)] *)
Definition errFileRead (caFile : string) (err : error) : error :=
  wrapError ("failed to read CA certificate from file " ++ caFile
             ++ " (" ++ Error err ++ ")") err.

(** [fmt.Errorf("the provided CA certificate is not a valid certificate in PEM format in file %s", caFile)] *)
Definition errFileNotPEM (caFile : string) : error :=
  errorString ("the provided CA certificate is not a valid certificate in PEM format in file "
               ++ caFile).

(** [fmt.Errorf("failed to remove disk %s (%w)", diskID, err)] *)
Definition errRemoveFailed (diskID : string) (err : error) : error :=
  wrapError ("failed to remove disk " ++ diskID ++ " (" ++ Error err ++ ")") err.

(** [fmt.Errorf("timeout while tryint to remove disk %s (last error: %w)", diskID, lastError)];
    with a [nil] operand [%w] prints [%!w(<nil>)] and nothing is wrapped. *)
Definition TimeoutError (diskID : string) (lastError : option error) : error :=
  match lastError with
  | Some err =>
      wrapError ("timeout while tryint to remove disk " ++ diskID
                 ++ " (last error: " ++ Error err ++ ")") err
  | None =>
      errorString ("timeout while tryint to remove disk " ++ diskID
                   ++ " (last error: %!w(<nil>))")
  end.

(** What happened during a run of [RemoveDisk], in order. *)
Inductive Event : Type :=
| EvRemoveSend (diskID : string) (err : option error)
| EvSelect (c : SelectCase).

Section Package.
Context `{Env : Environment}.

(** [[
      tlsConfig := &tls.Config{ MinVersion: ..., CipherSuites: ..., CurvePreferences: ...,
                                PreferServerCipherSuites: false, InsecureSkipVerify: insecure }
      certPool, err := x509.SystemCertPool()
      if err != nil { certPool = x509.NewCertPool() }
      if len(caCert) != 0 {
          if ok := certPool.AppendCertsFromPEM(caCert); !ok { return nil, fmt.Errorf(...) }
      }
      if caFile != "" {
          pemData, err := ioutil.ReadFile(caFile)
          if err != nil { return nil, fmt.Errorf(...) }
          if ok := certPool.AppendCertsFromPEM(pemData); !ok { return nil, fmt.Errorf(...) }
      }
      return tlsConfig, nil
    ]] *)
Definition createTLSConfig (caFile : string) (caCert : list byte) (insecure : bool)
  : result (tls.Config CertPool) :=
  let tlsConfig :=
    {| tls.MinVersion := tls.VersionTLS12;
       tls.CipherSuites :=
         [ tls.TLS_ECDHE_ECDSA_WITH_AES_128_GCM_SHA256;
           tls.TLS_ECDHE_RSA_WITH_AES_128_GCM_SHA256;
           tls.TLS_ECDHE_ECDSA_WITH_AES_256_GCM_SHA384;
           tls.TLS_ECDHE_RSA_WITH_AES_256_GCM_SHA384;
           tls.TLS_ECDHE_ECDSA_WITH_CHACHA20_POLY1305;
           tls.TLS_ECDHE_RSA_WITH_CHACHA20_POLY1305 ];
       tls.CurvePreferences := [ tls.CurveP256; tls.CurveP384 ];
       tls.PreferServerCipherSuites := false;
       tls.InsecureSkipVerify := insecure;
       tls.RootCAs := None |} in
  let certPool :=
    match SystemCertPool with
    | Ok pool => pool
    | Err _ => NewCertPool
    end in
  let afterInline : result CertPool :=
    if negb (List.length caCert =? 0)%nat then
      let '(pool, ok) := AppendCertsFromPEM certPool caCert in
      if negb ok then Err errInlineNotPEM else Ok pool
    else Ok certPool in
  match afterInline with
  | Err e => Err e
  | Ok certPool =>
      let afterFile : result CertPool :=
        if negb (String.eqb caFile "") then
          match ReadFile caFile with
          | Err err => Err (errFileRead caFile err)
          | Ok pemData =>
              let '(pool, ok) := AppendCertsFromPEM certPool pemData in
              if negb ok then Err (errFileNotPEM caFile) else Ok pool
          end
        else Ok certPool in
      match afterFile with
      | Err e => Err e
      | Ok _ => Ok tlsConfig
      end
  end.

(** [type oVirtClient struct { conn; httpClient; logger; url }] *)
Record oVirtClient : Type := {
  conn : Connection;
  httpClient : http.Client CertPool;
  logger : Logger;
  url : string
}.

(** [func New(url, username, password, caFile string, caCert []byte,
              insecure bool, extraHeaders map[string]string, logger Logger) (Client, error)] *)
Definition New (url username password caFile : string) (caCert : list byte)
    (insecure : bool) (extraHeaders : gmap string string) (logger : Logger)
  : result oVirtClient :=
  match validateURL url with
  | Some err => Err (InvalidURL url err)
  | None =>
  match validateUsername username with
  | Some err => Err (InvalidUsername username err)
  | None =>
  if String.eqb caFile "" && (List.length caCert =? 0)%nat && negb insecure
  then Err MissingTrustConfiguration
  else
    let connBuilder :=
      ovirtsdk4.LogFunc logger
        (ovirtsdk4.Insecure insecure
           (ovirtsdk4.CACert caCert
              (ovirtsdk4.CAFile caFile
                 (ovirtsdk4.Password password
                    (ovirtsdk4.Username username
                       (ovirtsdk4.URL url ovirtsdk4.NewConnectionBuilder)))))) in
    let connBuilder :=
      if (0 <? size extraHeaders)%nat
      then ovirtsdk4.Headers extraHeaders connBuilder
      else connBuilder in
    match Build connBuilder with
    | Err err => Err (ConnectionBuildError err)
    | Ok conn =>
        match createTLSConfig caFile caCert insecure with
        | Err err => Err (CertificateError err)
        | Ok tlsConfig =>
            let httpClient :=
              {| http.Transport_ := Some {| http.TLSClientConfig := Some tlsConfig |} |} in
            Ok {| conn := conn; httpClient := httpClient; logger := logger; url := url |}
        end
    end
  end
  end.

(** The accessors read one field of the receiver. *)
Definition GetSDKClient (o : oVirtClient) : Connection := conn o.
Definition GetHTTPClient (o : oVirtClient) : http.Client CertPool := httpClient o.
Definition GetURL (o : oVirtClient) : string := url o.

(** The state a method call runs in: the wrapper object behind the
    receiver pointer, the clock, the engine, and the log of what
    [RemoveDisk] did. *)
Record State : Type := {
  self : oVirtClient;
  clock : N;
  sdk : SDKState;
  events : list Event
}.

(** One removal request through the receiver's connection. *)
Definition send (diskID : string) (st : State) : option error * State :=
  let '(err, took, sdk') := RemoveSend (conn (self st)) diskID (sdk st) in
  (err,
   {| self := self st; clock := clock st + took; sdk := sdk';
      events := events st ++ [EvRemoveSend diskID err] |}).

(** [[
      select {
      case <-time.After(d):
      case <-ctx.Done():
      }
    ]]
    entered at instant [clock st]: the timer's channel is ready at
    [clock st + d], [Done()] once the context is done; the case that is
    ready first runs, and the scheduler picks when both are ready at the
    same instant. *)
Definition selectAfterDone (d : time.Duration) (ctx : context.Context) (st : State)
  : SelectCase * State :=
  let fires := (clock st + d)%N in
  let '(c, t) :=
    match context.doneAt ctx with
    | None => (TimerFired, fires)
    | Some cancelled =>
        let done := N.max cancelled (clock st) in
        match (fires ?= done)%N with
        | Lt => (TimerFired, fires)
        | Gt => (CtxDone, done)
        | Eq => (selectBoth fires, fires)
        end
    end in
  (c, {| self := self st; clock := t; sdk := sdk st;
         events := events st ++ [EvSelect c] |}).

(** A run either returned, or is still in the loop when the fuel that
    bounds the number of iterations is used up. *)
Inductive Outcome : Type :=
| Returned (err : option error) (st : State)
| Running (lastError : option error) (st : State).

(** The [for] loop of [RemoveDisk] with the value of [lastError] on entry:
    [[
      for {
          if _, err := o.conn.SystemService().DisksService().DiskService(diskID).Remove().Send(); err != nil {
              lastError = fmt.Errorf("failed to remove disk %s (%w)", diskID, err)
          } else {
              return nil
          }
          select {
          case <-time.After(5 * time.Second):
          case <-ctx.Done():
              return fmt.Errorf("timeout while tryint to remove disk %s (last error: %w)", diskID, lastError)
          }
      }
    ]] *)
Fixpoint RemoveDisk_loop (fuel : nat) (ctx : context.Context) (diskID : string)
    (lastError : option error) (st : State) : Outcome :=
  match fuel with
  | O => Running lastError st
  | S fuel' =>
      match send diskID st with
      | (None, st1) => Returned None st1
      | (Some err, st1) =>
          let lastError := Some (errRemoveFailed diskID err) in
          match selectAfterDone (5 * time.Second)%N ctx st1 with
          | (TimerFired, st2) => RemoveDisk_loop fuel' ctx diskID lastError st2
          | (CtxDone, st2) => Returned (Some (TimeoutError diskID lastError)) st2
          end
      end
  end.

(** [func (o *oVirtClient) RemoveDisk(ctx context.Context, diskID string) error] *)
Definition RemoveDisk (fuel : nat) (ctx : context.Context) (diskID : string)
    (st : State) : Outcome :=
  RemoveDisk_loop fuel ctx diskID None st.

(** The state a run has reached. *)
Definition stateOf (r : Outcome) : State :=
  match r with
  | Returned _ st => st
  | Running _ st => st
  end.

(** The methods of the [Client] interface that [oVirtClient] implements,
    as calls on the object in the state, each with its arguments. *)
Inductive Call : Type :=
| CallGetSDKClient
| CallGetHTTPClient
| CallGetURL
| CallRemoveDisk (fuel : nat) (ctx : context.Context) (diskID : string).

Inductive Value : Type :=
| VConnection (c : Connection)
| VHTTPClient (h : http.Client CertPool)
| VString (s : string)
| VOutcome (r : Outcome).

Definition call (c : Call) (st : State) : Value * State :=
  match c with
  | CallGetSDKClient => (VConnection (GetSDKClient (self st)), st)
  | CallGetHTTPClient => (VHTTPClient (GetHTTPClient (self st)), st)
  | CallGetURL => (VString (GetURL (self st)), st)
  | CallRemoveDisk fuel ctx diskID =>
      let r := RemoveDisk fuel ctx diskID st in (VOutcome r, stateOf r)
  end.

(** A sequence of calls, one after the other; the values they returned. *)
Fixpoint calls (cs : list Call) (st : State) : list Value * State :=
  match cs with
  | [] => ([], st)
  | c :: cs' =>
      let '(v, st1) := call c st in
      let '(vs, st2) := calls cs' st1 in
      (v :: vs, st2)
  end.

(** The builder as it stands when [New] calls [Build] on it. *)
Definition connBuilderOf (url username password caFile : string) (caCert : list byte)
    (insecure : bool) (extraHeaders : gmap string string) (logger : Logger)
  : ovirtsdk4.ConnectionBuilder Logger :=
  let connBuilder :=
    ovirtsdk4.LogFunc logger
      (ovirtsdk4.Insecure insecure
         (ovirtsdk4.CACert caCert
            (ovirtsdk4.CAFile caFile
               (ovirtsdk4.Password password
                  (ovirtsdk4.Username username
                     (ovirtsdk4.URL url ovirtsdk4.NewConnectionBuilder)))))) in
  if (0 <? size extraHeaders)%nat
  then ovirtsdk4.Headers extraHeaders connBuilder
  else connBuilder.

(** The pool [createTLSConfig] starts from: the host's, or an empty one. *)
Definition startPool : CertPool :=
  match SystemCertPool with
  | Ok pool => pool
  | Err _ => NewCertPool
  end.

(** The state after a removal request that took [took] and left the engine
    in [sdk']. *)
Definition afterSend (diskID : string) (err : option error) (took : N)
    (sdk' : SDKState) (st : State) : State :=
  {| self := self st; clock := clock st + took; sdk := sdk';
     events := (events st ++ [EvRemoveSend diskID err])%list |}.

(** The state after a [select] that ran case [c] at instant [t]. *)
Definition afterSelect (c : SelectCase) (t : N) (st : State) : State :=
  {| self := self st; clock := t; sdk := sdk st;
     events := (events st ++ [EvSelect c])%list |}.

(** The literal that [createTLSConfig] builds first and returns last. *)
Definition tlsProfile (insecure : bool) : tls.Config CertPool :=
  {| tls.MinVersion := tls.VersionTLS12;
     tls.CipherSuites :=
       [ tls.TLS_ECDHE_ECDSA_WITH_AES_128_GCM_SHA256;
         tls.TLS_ECDHE_RSA_WITH_AES_128_GCM_SHA256;
         tls.TLS_ECDHE_ECDSA_WITH_AES_256_GCM_SHA384;
         tls.TLS_ECDHE_RSA_WITH_AES_256_GCM_SHA384;
         tls.TLS_ECDHE_ECDSA_WITH_CHACHA20_POLY1305;
         tls.TLS_ECDHE_RSA_WITH_CHACHA20_POLY1305 ];
     tls.CurvePreferences := [ tls.CurveP256; tls.CurveP384 ];
     tls.PreferServerCipherSuites := false;
     tls.InsecureSkipVerify := insecure;
     tls.RootCAs := None |}.

(** The pool as it is when [createTLSConfig] turns to the file: the
    starting pool, with the inline bytes appended when there are any. *)
Definition inlinePool (caCert : list byte) : CertPool :=
  if (List.length caCert =? 0)%nat then startPool
  else fst (AppendCertsFromPEM startPool caCert).

(** [k] removal requests in a row through connection [c], starting with
    the engine in [s]: the time they take together and the engine
    afterwards. *)
Fixpoint requests (c : Connection) (diskID : string) (k : nat) (s : SDKState)
  : N * SDKState :=
  match k with
  | O => (0%N, s)
  | S k' =>
      let '(_, took, s1) := RemoveSend c diskID s in
      let '(t, s') := requests c diskID k' s1 in
      ((took + t)%N, s')
  end.

End Package.

(** How many removal requests, and how many waits, a log records. *)
Fixpoint attempts (evs : list Event) : nat :=
  match evs with
  | [] => 0
  | EvRemoveSend _ _ :: evs' => S (attempts evs')
  | EvSelect _ :: evs' => attempts evs'
  end.
Fixpoint waits (evs : list Event) : nat :=
  match evs with
  | [] => 0
  | EvRemoveSend _ _ :: evs' => waits evs'
  | EvSelect _ :: evs' => S (waits evs')
  end.

(** [sub] occurs in [s]. *)
Definition Mentions (s sub : string) : Prop :=
  exists before after, s = before ++ sub ++ after.

(* ===================================================================== *)
(** ** Concrete environments                                              *)
(* ===================================================================== *)

Module scenario.

(** The knobs of a concrete environment: whether the SDK refuses to
    build a connection, which byte strings parse as PEM certificates,
    the files there are, the answer to the n-th removal request (counted
    from 0) and how long every request takes, and the scheduler's pick. *)
Record Setup : Type := {
  buildFails : bool;
  validPEM : list byte -> bool;
  files : string -> result (list byte);
  removal : nat -> option error;
  removalTook : N;
  pick : SelectCase
}.

#[local] Instance environment (s : Setup) : Environment := {|
  Logger := unit;
  CertPool := list (list byte);
  SystemCertPool := Err (errorString "system certificate pool is not available");
  NewCertPool := [];
  AppendCertsFromPEM := fun pool pem =>
    if validPEM s pem then ((pool ++ [pem])%list, true) else (pool, false);
  ReadFile := files s;
  Connection := ovirtsdk4.ConnectionBuilder unit;
  Build := fun b =>
    if buildFails s then Err (errorString "engine unreachable") else Ok b;
  SDKState := nat;
  RemoveSend := fun _ _ n => (removal s n, removalTook s, S n);
  selectBoth := fun _ => pick s
|}.

Definition noFiles (name : string) : result (list byte) :=
  Err (errorString ("open " ++ name ++ ": no such file or directory")).

(** Nothing parses as PEM, there are no files, every removal fails. *)
Definition hostile : Setup :=
  {| buildFails := false;
     validPEM := fun _ => false;
     files := noFiles;
     removal := fun _ => Some (errorString "disk is locked");
     removalTook := 250000000;
     pick := TimerFired |}.

(** As [hostile], and the SDK refuses to build a connection. *)
Definition unreachable : Setup :=
  {| buildFails := true;
     validPEM := fun _ => false;
     files := noFiles;
     removal := fun _ => Some (errorString "disk is locked");
     removalTook := 250000000;
     pick := TimerFired |}.

(** The removal fails twice and then succeeds. *)
Definition flaky : Setup :=
  {| buildFails := false;
     validPEM := fun _ => true;
     files := noFiles;
     removal := fun n => if (n <? 2)%nat then Some (errorString "disk is locked") else None;
     removalTook := 250000000;
     pick := TimerFired |}.

Definition engineURL : string := "http://engine.example/ovirt-engine/api".

(** A wrapper for the engine, as [New] builds it in [s] with
    [insecure = true] and no CA material. *)
Definition client (s : Setup) : @oVirtClient (environment s) :=
  @Build_oVirtClient (environment s)
    (connBuilderOf (Env := environment s) engineURL "admin@internal" "x" "" [] true ∅ tt)
    {| http.Transport_ := Some {| http.TLSClientConfig :=
         Some {| tls.MinVersion := tls.VersionTLS12;
                 tls.CipherSuites :=
                   [ tls.TLS_ECDHE_ECDSA_WITH_AES_128_GCM_SHA256;
                     tls.TLS_ECDHE_RSA_WITH_AES_128_GCM_SHA256;
                     tls.TLS_ECDHE_ECDSA_WITH_AES_256_GCM_SHA384;
                     tls.TLS_ECDHE_RSA_WITH_AES_256_GCM_SHA384;
                     tls.TLS_ECDHE_ECDSA_WITH_CHACHA20_POLY1305;
                     tls.TLS_ECDHE_RSA_WITH_CHACHA20_POLY1305 ];
                 tls.CurvePreferences := [ tls.CurveP256; tls.CurveP384 ];
                 tls.PreferServerCipherSuites := false;
                 tls.InsecureSkipVerify := true;
                 tls.RootCAs := None |} |} |}
    tt
    engineURL.

(** The state in which a method of [client s] is called at instant [t]. *)
Definition initial (s : Setup) (t : N) : @State (environment s) :=
  @Build_State (environment s) (client s) t 0%nat [].

(** Bytes that are no certificate. *)
Definition garbage : list byte := list_byte_of_string "not a certificate".

(** The parameter checks of go-ovirt's [Build], in its order: a builder
    without URL, without user name or without password is refused (an
    empty string counts as none); the texts stand for the SDK's.  For an
    [http://] URL the SDK does not look at the CA material. *)
Definition sdkBuild (b : ovirtsdk4.ConnectionBuilder unit)
  : result (ovirtsdk4.ConnectionBuilder unit) :=
  match ovirtsdk4.url b with
  | None => Err (errorString "the URL must not be empty")
  | Some _ =>
      match ovirtsdk4.username b with
      | None | Some "" => Err (errorString "the username must not be empty")
      | Some _ =>
          match ovirtsdk4.password b with
          | None | Some "" => Err (errorString "the password must not be empty")
          | Some _ => Ok b
          end
      end
  end.

(** As [environment hostile], with [sdkBuild] for the SDK's [Build]. *)
#[local] Instance checking : Environment := {|
  Logger := unit;
  CertPool := list (list byte);
  SystemCertPool := Err (errorString "system certificate pool is not available");
  NewCertPool := [];
  AppendCertsFromPEM := fun pool pem => (pool, false);
  ReadFile := noFiles;
  Connection := ovirtsdk4.ConnectionBuilder unit;
  Build := sdkBuild;
  SDKState := nat;
  RemoveSend := fun _ _ n => (Some (errorString "disk is locked"), 250000000%N, S n);
  selectBoth := fun _ => TimerFired
|}.

End scenario.

(* ===================================================================== *)
(** ** Facts about the string functions                                   *)
(* ===================================================================== *)

Module stringsFacts.
Import strings.
#[local] Arguments String.append !s1 s2.

Lemma length_app (a b : string) :
  String.length (a ++ b) = String.length a + String.length b.
Proof. induction a as [|c a IH]; simpl; [reflexivity | now rewrite IH]. Qed.

Lemma app_empty_r (a : string) : a ++ "" = a.
Proof. induction a as [|c a IH]; simpl; [reflexivity | now rewrite IH]. Qed.

Lemma app_assoc (a b c : string) : (a ++ b) ++ c = a ++ (b ++ c).
Proof. induction a as [|x a IH]; simpl; [reflexivity | now rewrite IH]. Qed.

Lemma substring_zero_zero (s : string) : substring 0 0 s = "".
Proof. destruct s; reflexivity. Qed.

(** Taking [length p] bytes from the start of [p ++ t] gives [p]. *)
Lemma substring_head (p t : string) : substring 0 (String.length p) (p ++ t) = p.
Proof.
  induction p as [|c p IH]; simpl.
  - apply substring_zero_zero.
  - now rewrite IH.
Qed.

(** Skipping [p] in [p ++ t]. *)
Lemma substring_skip (p t : string) (k n : nat) :
  substring (String.length p + k) n (p ++ t) = substring k n t.
Proof. induction p as [|c p IH]; simpl; [reflexivity | exact IH]. Qed.

Lemma substring_all (s : string) : substring 0 (String.length s) s = s.
Proof.
  rewrite <- (app_empty_r s) at 2. apply substring_head.
Qed.

(** A string is its first [n] bytes followed by the rest. *)
Lemma substring_split (s : string) (n : nat) :
  n <= String.length s ->
  s = substring 0 n s ++ substring n (String.length s - n) s.
Proof.
  revert n. induction s as [|c s IH]; intros n Hn; simpl in *.
  - assert (n = 0) by lia. subst. reflexivity.
  - destruct n as [|n]; simpl.
    + now rewrite substring_all.
    + f_equal. apply IH. lia.
Qed.

Lemma slice_prefix (p t : string) : slice (p ++ t) 0 (String.length p) = p.
Proof. unfold slice. rewrite Nat.sub_0_r. apply substring_head. Qed.

Lemma slice_suffix (t p : string) :
  slice (t ++ p) (String.length t) (String.length (t ++ p)) = p.
Proof.
  unfold slice. rewrite length_app.
  replace (String.length t + String.length p - String.length t)
    with (String.length p) by lia.
  rewrite <- (Nat.add_0_r (String.length t)) at 1.
  rewrite substring_skip. apply substring_all.
Qed.

(** [HasPrefix] holds exactly of the strings that begin with the prefix. *)
Lemma HasPrefix_iff (s p : string) :
  HasPrefix s p = true <-> exists t, s = p ++ t.
Proof.
  unfold HasPrefix. rewrite andb_true_iff, Nat.leb_le, String.eqb_eq. split.
  - intros [Hlen Heq].
    exists (substring (String.length p) (String.length s - String.length p) s).
    rewrite <- Heq at 1. unfold slice. rewrite Nat.sub_0_r.
    now apply substring_split.
  - intros [t ->]. split.
    + rewrite length_app. lia.
    + apply slice_prefix.
Qed.

(** [HasSuffix] holds exactly of the strings that end with the suffix. *)
Lemma HasSuffix_iff (s p : string) :
  HasSuffix s p = true <-> exists t, s = t ++ p.
Proof.
  unfold HasSuffix. rewrite andb_true_iff, Nat.leb_le, String.eqb_eq. split.
  - intros [Hlen Heq].
    exists (substring 0 (String.length s - String.length p) s).
    rewrite <- Heq at 2. unfold slice.
    apply substring_split. lia.
  - intros [t ->]. split.
    + rewrite length_app. lia.
    + rewrite length_app at 1.
      replace (String.length t + String.length p - String.length p)
        with (String.length t) by lia.
      apply slice_suffix.
Qed.

(** *** Searching for one byte *)

Lemma index_char_cons (c b : ascii) (s : string) :
  Index (String b s) (String c "") =
    if Ascii.eqb c b then Some 0
    else match Index s (String c "") with
         | Some n => Some (S n)
         | None => None
         end.
Proof.
  unfold Index. simpl.
  destruct (ascii_dec c b) as [->|Hne].
  - rewrite Ascii.eqb_refl. destruct s; reflexivity.
  - apply Ascii.eqb_neq in Hne. rewrite Hne. reflexivity.
Qed.

Lemma index_char_empty (c : ascii) : Index "" (String c "") = None.
Proof. reflexivity. Qed.

(** No occurrence of [c] at all: [Index] answers [-1]. *)
Lemma Index_None_iff (s : string) (c : ascii) :
  Index s (String c "") = None <-> Count s c = 0.
Proof.
  induction s as [|b s IH].
  - simpl. rewrite index_char_empty. tauto.
  - rewrite index_char_cons. simpl. rewrite (Ascii.eqb_sym b c).
    destruct (Ascii.eqb c b).
    + split; [discriminate | intros H; lia].
    + simpl. destruct (Index s (String c "")).
      * split; [discriminate | intros H; apply IH in H; discriminate].
      * split; [intros _; now apply IH | reflexivity].
Qed.

(** [Index] finds the first occurrence: nothing before it is [c]. *)
Lemma Index_Some_split (s : string) (c : ascii) (m : nat) :
  Index s (String c "") = Some m ->
  exists p r, s = p ++ String c r /\ String.length p = m /\ Count p c = 0.
Proof.
  revert m. induction s as [|b s IH]; intros m.
  - rewrite index_char_empty. discriminate.
  - rewrite index_char_cons.
    destruct (Ascii.eqb c b) eqn:Hcb.
    + intros [= <-]. apply Ascii.eqb_eq in Hcb. subst b.
      exists "", s. repeat split.
    + destruct (Index s (String c "")) as [n|]; [|discriminate].
      intros [= <-].
      destruct (IH n eq_refl) as (p & r & -> & Hlen & Hcnt).
      exists (String b p), r. simpl. rewrite Hlen, Hcnt.
      rewrite (Ascii.eqb_sym b c), Hcb. repeat split.
Qed.

Lemma Index_first (p r : string) (c : ascii) :
  Count p c = 0 -> Index (p ++ String c r) (String c "") = Some (String.length p).
Proof.
  induction p as [|b p IH]; simpl; intros Hcnt.
  - rewrite index_char_cons, Ascii.eqb_refl. reflexivity.
  - rewrite index_char_cons. rewrite (Ascii.eqb_sym c b).
    destruct (Ascii.eqb b c); [lia|].
    rewrite IH by lia. reflexivity.
Qed.

Lemma Count_app (a b : string) (c : ascii) :
  Count (a ++ b) c = Count a c + Count b c.
Proof. induction a as [|x a IH]; simpl; [reflexivity | rewrite IH; lia]. Qed.

(** *** [SplitN(s, "@", 2)] *)

(** Without the separator the string comes back whole. *)
Lemma SplitN_2_absent (s : string) (c : ascii) :
  Count s c = 0 -> SplitN s (String c "") 2 = [s].
Proof.
  intros Hcnt. unfold SplitN.
  destruct (Nat.min 2 (String.length s + 1) - 1) as [|k]; simpl; [reflexivity|].
  apply Index_None_iff in Hcnt. now rewrite Hcnt.
Qed.

(** With the separator the cut is at its first occurrence, and the
    second part keeps any further separators. *)
Lemma SplitN_2_present (p r : string) (c : ascii) :
  Count p c = 0 -> SplitN (p ++ String c r) (String c "") 2 = [p; r].
Proof.
  intros Hcnt. unfold SplitN.
  replace (Nat.min 2 (String.length (p ++ String c r) + 1) - 1) with 1
    by (rewrite length_app; change (String.length (String c r)) with (S (String.length r)); lia).
  simpl. rewrite Index_first by assumption.
  rewrite slice_prefix. f_equal. f_equal.
  unfold slice. rewrite substring_skip. simpl.
  rewrite length_app. simpl.
  replace (String.length p + S (String.length r) - (String.length p + 1))
    with (String.length r) by lia.
  apply substring_all.
Qed.

Lemma length_zero_iff (s : string) : String.length s = 0 <-> s = "".
Proof. destruct s; simpl; split; intros H; try reflexivity; discriminate. Qed.

End stringsFacts.

(* ===================================================================== *)
(** ** What the validators accept                                         *)
(* ===================================================================== *)

Module validatorFacts.
Import strings stringsFacts.

Lemma validateURL_cases (url : string) :
  validateURL url = None \/ validateURL url = Some errURLScheme.
Proof. unfold validateURL. destruct (_ && _); auto. Qed.

Lemma validateURL_None_bool (url : string) :
  validateURL url = None <->
  HasPrefix url "http://" = true \/ HasSuffix url "https://" = true.
Proof.
  unfold validateURL.
  destruct (HasPrefix url "http://"), (HasSuffix url "https://"); simpl;
    intuition discriminate.
Qed.

Lemma validateURL_None_iff (url : string) :
  validateURL url = None <->
  (exists t, url = "http://" ++ t) \/ (exists t, url = t ++ "https://").
Proof.
  rewrite validateURL_None_bool, HasPrefix_iff, HasSuffix_iff. reflexivity.
Qed.

(** A user name without any [@]. *)
Lemma validateUsername_absent (username : string) :
  Count username "@" = 0 -> validateUsername username = Some errUsernameAtSign.
Proof.
  intros Hcnt. unfold validateUsername.
  rewrite (SplitN_2_absent username "@" Hcnt). reflexivity.
Qed.

(** A user name cut at its first [@]. *)
Lemma validateUsername_split (p r : string) :
  Count p "@" = 0 ->
  validateUsername (p ++ String "@" r) =
    if (String.length p =? 0)%nat then Some errUsernameNoUser
    else if (String.length r =? 0)%nat then Some errUsernameNoScope
    else None.
Proof.
  intros Hcnt. unfold validateUsername.
  rewrite (SplitN_2_present p r "@" Hcnt). reflexivity.
Qed.

(** Every user name is of one of the two shapes above. *)
Lemma username_shape (username : string) :
  Count username "@" = 0 \/
  exists p r, username = p ++ String "@" r /\ Count p "@" = 0.
Proof.
  destruct (Index username "@") as [m|] eqn:Hidx.
  - right. destruct (Index_Some_split _ _ _ Hidx) as (p & r & -> & _ & Hcnt).
    now exists p, r.
  - left. now apply Index_None_iff.
Qed.

(** [validateUsername] accepts exactly the names in which a non-empty
    part without [@] is followed by [@] and a non-empty rest. *)
Lemma validateUsername_None_iff (username : string) :
  validateUsername username = None <->
  exists p r, username = p ++ String "@" r /\ p <> "" /\ r <> "" /\ Count p "@" = 0.
Proof.
  split.
  - intros Hok. destruct (username_shape username) as [Hcnt | (p & r & -> & Hcnt)].
    + rewrite validateUsername_absent in Hok by assumption. discriminate.
    + rewrite validateUsername_split in Hok by assumption.
      exists p, r. split; [reflexivity|].
      destruct (String.length p =? 0)%nat eqn:Hp; [discriminate|].
      destruct (String.length r =? 0)%nat eqn:Hr; [discriminate|].
      apply Nat.eqb_neq in Hp, Hr.
      rewrite length_zero_iff in Hp, Hr. auto.
  - intros (p & r & -> & Hp & Hr & Hcnt).
    rewrite validateUsername_split by assumption.
    rewrite <- length_zero_iff in Hp, Hr.
    apply Nat.eqb_neq in Hp, Hr. now rewrite Hp, Hr.
Qed.

End validatorFacts.

(* ===================================================================== *)
(** ** The URL check                                                      *)
(* ===================================================================== *)

(** C10: [validateURL] accepts exactly the strings that start with
    [http://] or end with [https://]: every string ending in [https://]
    passes whatever its beginning, and every string that neither starts
    with [http://] nor ends with [https://] is refused. *)
Theorem validateURL_prefix_http_or_suffix_https :
  forall url : string,
    (validateURL url = None <->
       (exists t, url = "http://" ++ t) \/ (exists t, url = t ++ "https://"))
    /\ ((exists t, url = t ++ "https://") -> validateURL url = None)
    /\ (~ (exists t, url = "http://" ++ t) ->
        ~ (exists t, url = t ++ "https://") ->
        validateURL url = Some errURLScheme).
Proof.
  intros url. pose proof (validatorFacts.validateURL_None_iff url) as Hiff.
  split; [exact Hiff|]. split.
  - intros Hsuffix. apply Hiff. now right.
  - intros Hpre Hsuf.
    destruct (validatorFacts.validateURL_cases url) as [Hok|Hbad]; [|exact Hbad].
    apply Hiff in Hok. tauto.
Qed.

(** The accepted string [ftp://mirror/https://] ends with [https://], and
    the refused [https://engine.example] fits neither shape. *)
Lemma validateURL_prefix_http_or_suffix_https_examples :
  validateURL "ftp://mirror/https://" = None
  /\ validateURL "https://engine.example" = Some errURLScheme.
Proof.
  split.
  - apply (proj1 (proj2 (validateURL_prefix_http_or_suffix_https "ftp://mirror/https://"))).
    exists "ftp://mirror/". reflexivity.
  - apply (proj2 (proj2 (validateURL_prefix_http_or_suffix_https "https://engine.example"))).
    + intros [t Ht]. discriminate Ht.
    + intros [t Ht].
      assert (Hs : strings.HasSuffix "https://engine.example" "https://" = true)
        by (apply stringsFacts.HasSuffix_iff; now exists t).
      vm_compute in Hs. discriminate Hs.
Defined.

Section FactoryFacts.
Context `{Env : Environment}.

(** [New] reports whatever [validateURL] objects to, before anything else. *)
Lemma New_invalid_url (url username password caFile : string) (caCert : list byte)
    (insecure : bool) (extraHeaders : gmap string string) (logger : Logger) (err : error) :
  validateURL url = Some err ->
  New url username password caFile caCert insecure extraHeaders logger
  = Err (InvalidURL url err).
Proof. intros H. unfold New. now rewrite H. Qed.

(** C1: against the specification, a URL that starts with [https://] is
    refused with the URL error, and a URL that starts with neither scheme
    passes the check when it ends with [https://]: the second test of
    [validateURL] looks at the end of the string. *)
Theorem New_https_prefix_refused :
  forall (username password caFile : string) (caCert : list byte) (insecure : bool)
         (extraHeaders : gmap string string) (logger : Logger),
    New "https://engine.example/ovirt-engine/api" username password caFile caCert
        insecure extraHeaders logger
    = Err (InvalidURL "https://engine.example/ovirt-engine/api" errURLScheme)
    /\ validateURL "https://engine.example/ovirt-engine/api" = Some errURLScheme
    /\ validateURL "ftp://mirror/https://" = None.
Proof.
  intros. split; [|split; reflexivity].
  apply New_invalid_url. reflexivity.
Qed.

(** C2: in the scenario of the specification (an [https://] URL,
    [admin@internal], password [x], [insecure = true], no CA material)
    [New] does not succeed: it fails on the URL check, whatever the SDK
    would do. *)
Theorem New_scenario_fails_on_url :
  forall (extraHeaders : gmap string string) (logger : Logger),
    New "https://engine.example/ovirt-engine/api" "admin@internal" "x" "" [] true
        extraHeaders logger
    = Err (InvalidURL "https://engine.example/ovirt-engine/api" errURLScheme)
    /\ Error (InvalidURL "https://engine.example/ovirt-engine/api" errURLScheme)
       = "invalid URL: https://engine.example/ovirt-engine/api (URL must start with http:// or https://)".
Proof.
  intros. split; [|reflexivity].
  apply New_invalid_url. reflexivity.
Qed.

(** Whether one of the three trust mechanisms was given, as [New] tests it. *)
Lemma trust_test_false (caFile : string) (caCert : list byte) (insecure : bool) :
  caFile <> "" \/ caCert <> [] \/ insecure = true ->
  String.eqb caFile "" && (List.length caCert =? 0)%nat && negb insecure = false.
Proof.
  intros [Hf | [Hc | Hi]].
  - apply String.eqb_neq in Hf. now rewrite Hf.
  - destruct caCert; [congruence|]. simpl. now rewrite andb_false_r.
  - subst. simpl. now rewrite andb_false_r.
Qed.

(** Past the three checks, [New] is the SDK's [Build] followed by
    [createTLSConfig]. *)
Lemma New_past_checks (url username password caFile : string) (caCert : list byte)
    (insecure : bool) (extraHeaders : gmap string string) (logger : Logger) :
  validateURL url = None ->
  validateUsername username = None ->
  caFile <> "" \/ caCert <> [] \/ insecure = true ->
  New url username password caFile caCert insecure extraHeaders logger =
    match Build (connBuilderOf url username password caFile caCert insecure
                   extraHeaders logger) with
    | Err err => Err (ConnectionBuildError err)
    | Ok conn =>
        match createTLSConfig caFile caCert insecure with
        | Err err => Err (CertificateError err)
        | Ok tlsConfig =>
            Ok {| conn := conn;
                  httpClient :=
                    {| http.Transport_ :=
                         Some {| http.TLSClientConfig := Some tlsConfig |} |};
                  logger := logger;
                  url := url |}
        end
    end.
Proof.
  intros Hurl Huser Htrust. unfold New, connBuilderOf.
  rewrite Hurl, Huser, (trust_test_false _ _ _ Htrust). reflexivity.
Qed.

(** X16: for every URL that [validateURL] accepts and every user name
    that [validateUsername] accepts: with no CA file, no CA bytes and
    [insecure = false], [New] fails with the missing-trust error; with at
    least one of the three present it does not fail with that error. *)
Theorem New_missing_trust_configuration :
  forall (url username password : string) (extraHeaders : gmap string string)
         (logger : Logger),
    validateURL url = None ->
    validateUsername username = None ->
    New url username password "" [] false extraHeaders logger
    = Err MissingTrustConfiguration
    /\ (forall (caFile : string) (caCert : list byte) (insecure : bool),
          caFile <> "" \/ caCert <> [] \/ insecure = true ->
          New url username password caFile caCert insecure extraHeaders logger
          <> Err MissingTrustConfiguration).
Proof.
  intros url username password extraHeaders logger Hurl Huser. split.
  - unfold New. rewrite Hurl, Huser. reflexivity.
  - intros caFile caCert insecure Htrust.
    rewrite New_past_checks by assumption.
    destruct (Build _) as [c|e]; [|discriminate].
    destruct (createTLSConfig _ _ _) as [cfg|e]; discriminate.
Qed.

(** The configuration that [createTLSConfig] returns when it succeeds is
    the literal it starts from. *)
Lemma createTLSConfig_Ok (caFile : string) (caCert : list byte) (insecure : bool)
    (cfg : tls.Config CertPool) :
  createTLSConfig caFile caCert insecure = Ok cfg ->
  cfg = {| tls.MinVersion := tls.VersionTLS12;
           tls.CipherSuites :=
             [ tls.TLS_ECDHE_ECDSA_WITH_AES_128_GCM_SHA256;
               tls.TLS_ECDHE_RSA_WITH_AES_128_GCM_SHA256;
               tls.TLS_ECDHE_ECDSA_WITH_AES_256_GCM_SHA384;
               tls.TLS_ECDHE_RSA_WITH_AES_256_GCM_SHA384;
               tls.TLS_ECDHE_ECDSA_WITH_CHACHA20_POLY1305;
               tls.TLS_ECDHE_RSA_WITH_CHACHA20_POLY1305 ];
           tls.CurvePreferences := [ tls.CurveP256; tls.CurveP384 ];
           tls.PreferServerCipherSuites := false;
           tls.InsecureSkipVerify := insecure;
           tls.RootCAs := None |}.
Proof.
  unfold createTLSConfig.
  destruct (negb (List.length caCert =? 0)%nat).
  - destruct (AppendCertsFromPEM _ caCert) as [pool ok]. destruct ok; simpl; [|discriminate].
    destruct (negb (String.eqb caFile "")).
    + destruct (ReadFile caFile) as [pem|e]; [|discriminate].
      destruct (AppendCertsFromPEM pool pem) as [pool' ok']. destruct ok'; simpl; [|discriminate].
      now intros [= <-].
    + now intros [= <-].
  - destruct (negb (String.eqb caFile "")).
    + destruct (ReadFile caFile) as [pem|e]; [|discriminate].
      destruct (AppendCertsFromPEM _ pem) as [pool' ok']. destruct ok'; simpl; [|discriminate].
      now intros [= <-].
    + now intros [= <-].
Qed.

(** C8: whenever [createTLSConfig] succeeds, the configuration has TLS 1.2
    as its minimum version, the six ECDHE AEAD cipher suites in their fixed
    order (AES-128-GCM, AES-256-GCM and ChaCha20-Poly1305, each for ECDSA
    and for RSA certificates), the curves P-256 and P-384 in this order,
    and a skip-verify flag equal to the caller's [insecure]. *)
Theorem createTLSConfig_fixed_profile :
  forall (caFile : string) (caCert : list byte) (insecure : bool)
         (cfg : tls.Config CertPool),
    createTLSConfig caFile caCert insecure = Ok cfg ->
    tls.MinVersion cfg = tls.VersionTLS12
    /\ tls.CipherSuites cfg =
         [ tls.TLS_ECDHE_ECDSA_WITH_AES_128_GCM_SHA256;
           tls.TLS_ECDHE_RSA_WITH_AES_128_GCM_SHA256;
           tls.TLS_ECDHE_ECDSA_WITH_AES_256_GCM_SHA384;
           tls.TLS_ECDHE_RSA_WITH_AES_256_GCM_SHA384;
           tls.TLS_ECDHE_ECDSA_WITH_CHACHA20_POLY1305;
           tls.TLS_ECDHE_RSA_WITH_CHACHA20_POLY1305 ]
    /\ List.map tls.suiteInfo (tls.CipherSuites cfg) =
         [ Some (tls.ECDSA, tls.AES_128_GCM); Some (tls.RSA, tls.AES_128_GCM);
           Some (tls.ECDSA, tls.AES_256_GCM); Some (tls.RSA, tls.AES_256_GCM);
           Some (tls.ECDSA, tls.CHACHA20_POLY1305); Some (tls.RSA, tls.CHACHA20_POLY1305) ]
    /\ List.length (tls.CipherSuites cfg) = 6
    /\ tls.CurvePreferences cfg = [ tls.CurveP256; tls.CurveP384 ]
    /\ tls.InsecureSkipVerify cfg = insecure
    /\ (tls.InsecureSkipVerify cfg = true -> insecure = true).
Proof.
  intros caFile caCert insecure cfg Hok.
  apply createTLSConfig_Ok in Hok. subst cfg. simpl.
  repeat split; auto.
Qed.

(** *** Unusable CA material *)

Lemma Mentions_errFileRead (caFile : string) (err : error) :
  Mentions (Error (errFileRead caFile err)) caFile.
Proof.
  exists "failed to read CA certificate from file ", (" (" ++ Error err ++ ")").
  reflexivity.
Qed.

Lemma Mentions_errFileNotPEM (caFile : string) :
  Mentions (Error (errFileNotPEM caFile)) caFile.
Proof.
  exists "the provided CA certificate is not a valid certificate in PEM format in file ", "".
  simpl. now rewrite stringsFacts.app_empty_r.
Qed.

(** The text of a wrapped error shows in the text of its wrapper. *)
Lemma Mentions_CertificateError (err : error) (sub : string) :
  Mentions (Error err) sub -> Mentions (Error (CertificateError err)) sub.
Proof.
  intros (before & after & Heq).
  exists ("failed to create TLS configuration (" ++ before), (after ++ ")").
  simpl. rewrite Heq. now rewrite !stringsFacts.app_assoc.
Qed.

(** Inline bytes that do not parse stop [createTLSConfig] before it looks
    at the file. *)
Lemma createTLSConfig_inline_not_PEM (caFile : string) (caCert : list byte) (insecure : bool) :
  caCert <> [] ->
  snd (AppendCertsFromPEM startPool caCert) = false ->
  createTLSConfig caFile caCert insecure = Err errInlineNotPEM.
Proof.
  intros Hne Hbad. unfold createTLSConfig. fold startPool.
  destruct caCert as [|b caCert]; [congruence|]. simpl.
  destruct (AppendCertsFromPEM startPool (b :: caCert)) as [pool ok].
  simpl in Hbad. subst ok. reflexivity.
Qed.

(** With the inline bytes absent or accepted, leaving the pool [pool],
    a CA file decides the outcome. *)
Lemma createTLSConfig_file (caFile : string) (caCert : list byte) (insecure : bool)
    (pool : CertPool) :
  caFile <> "" ->
  (caCert = [] /\ pool = startPool)
  \/ (caCert <> [] /\ AppendCertsFromPEM startPool caCert = (pool, true)) ->
  (forall err, ReadFile caFile = Err err ->
     createTLSConfig caFile caCert insecure = Err (errFileRead caFile err))
  /\ (forall pem, ReadFile caFile = Ok pem ->
        snd (AppendCertsFromPEM pool pem) = false ->
        createTLSConfig caFile caCert insecure = Err (errFileNotPEM caFile)).
Proof.
  intros Hfile Hinline.
  apply String.eqb_neq in Hfile.
  assert (Hshape : createTLSConfig caFile caCert insecure =
            match ReadFile caFile with
            | Err err => Err (errFileRead caFile err)
            | Ok pem =>
                if snd (AppendCertsFromPEM pool pem)
                then createTLSConfig "" [] insecure
                else Err (errFileNotPEM caFile)
            end).
  { unfold createTLSConfig. fold startPool. rewrite Hfile. simpl.
    destruct Hinline as [[-> ->] | [Hne Happ]].
    - simpl. destruct (ReadFile caFile) as [pem|e]; [|reflexivity].
      destruct (AppendCertsFromPEM startPool pem) as [pool' ok]. now destruct ok.
    - destruct caCert as [|b caCert]; [congruence|]. simpl.
      rewrite Happ. simpl.
      destruct (ReadFile caFile) as [pem|e]; [|reflexivity].
      destruct (AppendCertsFromPEM pool pem) as [pool' ok]. now destruct ok. }
  split.
  - intros err Hread. now rewrite Hshape, Hread.
  - intros pem Hread Hbad. now rewrite Hshape, Hread, Hbad.
Qed.

(** C6 (amended): provided the URL and the user name pass their checks and
    the SDK builds the connection, [New] fails with the certificate error
    that names the offending source: non-empty inline bytes that do not
    parse give the error about the provided certificate, whatever the CA
    file is; and with the inline bytes absent or accepted, a CA file that
    cannot be read, or whose contents do not parse, gives an error whose
    text carries the file's path. *)
Theorem New_certificate_error_after_build :
  forall (url username password caFile : string) (caCert : list byte) (insecure : bool)
         (extraHeaders : gmap string string) (logger : Logger) (c : Connection),
    validateURL url = None ->
    validateUsername username = None ->
    Build (connBuilderOf url username password caFile caCert insecure
             extraHeaders logger) = Ok c ->
    (caCert <> [] ->
     snd (AppendCertsFromPEM startPool caCert) = false ->
     New url username password caFile caCert insecure extraHeaders logger
     = Err (CertificateError errInlineNotPEM))
    /\ (caFile <> "" ->
        forall pool : CertPool,
          (caCert = [] /\ pool = startPool)
          \/ (caCert <> [] /\ AppendCertsFromPEM startPool caCert = (pool, true)) ->
          (forall err, ReadFile caFile = Err err ->
             New url username password caFile caCert insecure extraHeaders logger
             = Err (CertificateError (errFileRead caFile err))
             /\ Mentions (Error (CertificateError (errFileRead caFile err))) caFile)
          /\ (forall pem, ReadFile caFile = Ok pem ->
                snd (AppendCertsFromPEM pool pem) = false ->
                New url username password caFile caCert insecure extraHeaders logger
                = Err (CertificateError (errFileNotPEM caFile))
                /\ Mentions (Error (CertificateError (errFileNotPEM caFile))) caFile)).
Proof.
  intros url username password caFile caCert insecure extraHeaders logger c
         Hurl Huser Hbuild.
  split.
  - intros Hne Hbad.
    rewrite New_past_checks by auto. rewrite Hbuild.
    now rewrite createTLSConfig_inline_not_PEM.
  - intros Hfile pool Hinline.
    destruct (createTLSConfig_file caFile caCert insecure pool Hfile Hinline)
      as [Hread Hparse].
    split.
    + intros err Herr. split.
      * rewrite New_past_checks by auto. rewrite Hbuild. now rewrite (Hread err Herr).
      * apply Mentions_CertificateError, Mentions_errFileRead.
    + intros pem Hpem Hbad. split.
      * rewrite New_past_checks by auto. rewrite Hbuild.
        now rewrite (Hparse pem Hpem Hbad).
      * apply Mentions_CertificateError, Mentions_errFileNotPEM.
Qed.

End FactoryFacts.

(* ===================================================================== *)
(** ** The factory in concrete environments                               *)
(* ===================================================================== *)

(** C3: the user name [a@b@c] has two [@], and the specification (like
    the text of the first error of [validateUsername]) wants exactly one;
    [SplitN] with limit 2 cuts it once, into [a] and [b@c], the check
    passes, and [New] succeeds. *)
Theorem validateUsername_two_at_signs :
  strings.Count "a@b@c" "@" = 2
  /\ strings.SplitN "a@b@c" "@" 2 = ["a"; "b@c"]
  /\ validateUsername "a@b@c" = None
  /\ exists o,
       New (Env := scenario.environment scenario.flaky)
           scenario.engineURL "a@b@c" "x" "" [] true ∅ tt = Ok o
       /\ GetURL o = scenario.engineURL.
Proof.
  repeat split. eexists. split; reflexivity.
Qed.

(** C6 does not hold when the SDK refuses to build the connection: with
    the accepted URL [http://engine.example/ovirt-engine/api], the
    accepted user name [admin@internal] and an empty password, which the
    SDK refuses, inline bytes that do not parse and a CA file that does
    not exist, [New] returns the connection error, since it calls [Build]
    before [createTLSConfig]; that is not the certificate error. *)
Lemma New_certificate_error_preempted_by_build :
  (exists t, scenario.engineURL = "http://" ++ t)
  /\ validateURL scenario.engineURL = None
  /\ validateUsername "admin@internal" = None
  /\ snd (AppendCertsFromPEM (Environment := scenario.checking)
            startPool scenario.garbage) = false
  /\ ReadFile (Environment := scenario.checking) "/no/such/ca.pem"
     = Err (errorString "open /no/such/ca.pem: no such file or directory")
  /\ New (Env := scenario.checking)
         scenario.engineURL "admin@internal" "" "/no/such/ca.pem"
         scenario.garbage false ∅ tt
     = Err (ConnectionBuildError (errorString "the password must not be empty"))
  /\ ConnectionBuildError (errorString "the password must not be empty")
     <> CertificateError errInlineNotPEM
  /\ New (Env := scenario.checking)
         scenario.engineURL "admin@internal" "x" "/no/such/ca.pem"
         scenario.garbage false ∅ tt
     = Err (CertificateError errInlineNotPEM).
Proof.
  split; [exists "engine.example/ovirt-engine/api"; reflexivity|].
  repeat split. discriminate.
Qed.

(** C7: for the URL [https://engine.example/ovirt-engine/api], which the
    specification counts as valid, the valid user name [admin@internal],
    no CA file, no CA bytes and [insecure = false], [New] does not fail
    with the missing-trust error: the URL check refuses the URL first, by
    its test on the end of the string. *)
Theorem New_missing_trust_hidden_by_url_check :
  forall (Env : Environment) (password : string) (extraHeaders : gmap string string)
         (logger : Logger),
    (exists t, "https://engine.example/ovirt-engine/api" = "https://" ++ t)
    /\ validateUsername "admin@internal" = None
    /\ New "https://engine.example/ovirt-engine/api" "admin@internal" password "" []
           false extraHeaders logger
       = Err (InvalidURL "https://engine.example/ovirt-engine/api" errURLScheme)
    /\ InvalidURL "https://engine.example/ovirt-engine/api" errURLScheme
       <> MissingTrustConfiguration.
Proof.
  intros Env password extraHeaders logger.
  split; [exists "engine.example/ovirt-engine/api"; reflexivity|].
  repeat split. discriminate.
Qed.

(** In an environment where nothing parses and no file exists: garbage
    inline bytes give the inline error even with a missing file, and a
    missing file alone gives the error that carries its path. *)
Lemma New_certificate_error_after_build_examples :
  New (Env := scenario.environment scenario.hostile)
      scenario.engineURL "admin@internal" "x" "/no/such/ca.pem"
      scenario.garbage false ∅ tt
  = Err (CertificateError errInlineNotPEM)
  /\ New (Env := scenario.environment scenario.hostile)
         scenario.engineURL "admin@internal" "x" "/no/such/ca.pem" [] false ∅ tt
     = Err (CertificateError
              (errFileRead "/no/such/ca.pem"
                 (errorString "open /no/such/ca.pem: no such file or directory"))).
Proof.
  split.
  - refine (proj1 (New_certificate_error_after_build
                     (Env := scenario.environment scenario.hostile)
                     scenario.engineURL "admin@internal" "x" "/no/such/ca.pem"
                     scenario.garbage false ∅ tt _ _ _ _) _ _);
      [reflexivity | reflexivity | reflexivity | discriminate | reflexivity].
  - refine (proj1 (proj1 (proj2 (New_certificate_error_after_build
                     (Env := scenario.environment scenario.hostile)
                     scenario.engineURL "admin@internal" "x" "/no/such/ca.pem"
                     [] false ∅ tt _ _ _ _) _ [] _) _ _));
      [reflexivity | reflexivity | reflexivity | discriminate
      | left; split; reflexivity | reflexivity].
Defined.

(** Without any trust mechanism [New] reports the missing one, and with
    [insecure = true] it goes on to build the wrapper. *)
Lemma New_missing_trust_configuration_examples :
  New (Env := scenario.environment scenario.flaky)
      scenario.engineURL "admin@internal" "x" "" [] false ∅ tt
  = Err MissingTrustConfiguration
  /\ New (Env := scenario.environment scenario.flaky)
         scenario.engineURL "admin@internal" "x" "" [] true ∅ tt
     <> Err MissingTrustConfiguration.
Proof.
  pose proof (New_missing_trust_configuration
                (Env := scenario.environment scenario.flaky)
                scenario.engineURL "admin@internal" "x" ∅ tt eq_refl eq_refl)
    as [Hnone Hsome].
  split.
  - exact Hnone.
  - apply Hsome. right. right. reflexivity.
Defined.

(** The profile of the configuration built for inline bytes that parse. *)
Lemma createTLSConfig_fixed_profile_example :
  exists cfg,
    createTLSConfig (Env := scenario.environment scenario.flaky)
      "" scenario.garbage false = Ok cfg
    /\ tls.MinVersion cfg = 0x0303%Z
    /\ tls.CipherSuites cfg = [0xc02b; 0xc02f; 0xc02c; 0xc030; 0xcca9; 0xcca8]%Z
    /\ tls.CurvePreferences cfg = [23; 24]%Z
    /\ tls.InsecureSkipVerify cfg = false.
Proof.
  eexists. split; [reflexivity|].
  pose proof (createTLSConfig_fixed_profile
                (Env := scenario.environment scenario.flaky)
                "" scenario.garbage false _ eq_refl)
    as (Hmin & Hsuites & _ & _ & Hcurves & Hskip & _).
  repeat split; assumption.
Defined.

(* ===================================================================== *)
(** ** The retry loop of [RemoveDisk]                                     *)
(* ===================================================================== *)

Lemma attempts_app (a b : list Event) :
  attempts (a ++ b)%list = attempts a + attempts b.
Proof.
  induction a as [|[d e|c] a IH]; simpl; [reflexivity | now rewrite IH | exact IH].
Qed.

Lemma waits_app (a b : list Event) :
  waits (a ++ b)%list = waits a + waits b.
Proof.
  induction a as [|[d e|c] a IH]; simpl; [reflexivity | exact IH | now rewrite IH].
Qed.

Section RemoveDiskFacts.
Context `{Env : Environment}.

Lemma send_eq (diskID : string) (st : State) (err : option error) (took : N)
    (sdk' : SDKState) :
  RemoveSend (conn (self st)) diskID (sdk st) = (err, took, sdk') ->
  send diskID st = (err, afterSend diskID err took sdk' st).
Proof. intros H. unfold send. now rewrite H. Qed.

(** A context that is done when the [select] is entered: its case runs at
    once, since the timer has still [d > 0] to go. *)
Lemma select_done (d : N) (ctx : context.Context) (st : State) (cancelled : N) :
  context.doneAt ctx = Some cancelled ->
  (cancelled <= clock st)%N ->
  (0 < d)%N ->
  selectAfterDone d ctx st = (CtxDone, afterSelect CtxDone (clock st) st).
Proof.
  intros Hdone Hle Hd. unfold selectAfterDone. rewrite Hdone.
  rewrite (N.max_r _ _ Hle).
  assert (Hcmp : (clock st + d ?= clock st)%N = Gt) by (apply N.compare_gt_iff; lia).
  now rewrite Hcmp.
Qed.

(** A context that is not done by the time the timer fires: the timer's
    case runs, [d] later. *)
Lemma select_timer (d : N) (ctx : context.Context) (st : State) :
  match context.doneAt ctx with
  | None => True
  | Some cancelled => (clock st + d < cancelled)%N
  end ->
  selectAfterDone d ctx st = (TimerFired, afterSelect TimerFired (clock st + d) st).
Proof.
  intros Hlive. unfold selectAfterDone.
  destruct (context.doneAt ctx) as [cancelled|]; [|reflexivity].
  rewrite N.max_l by lia.
  assert (Hcmp : (clock st + d ?= cancelled)%N = Lt) by (apply N.compare_lt_iff; lia).
  now rewrite Hcmp.
Qed.

(** One iteration whose request succeeds. *)
Lemma RemoveDisk_loop_success (fuel : nat) (ctx : context.Context) (diskID : string)
    (lastError : option error) (st : State) (took : N) (sdk' : SDKState) :
  RemoveSend (conn (self st)) diskID (sdk st) = (None, took, sdk') ->
  RemoveDisk_loop (S fuel) ctx diskID lastError st
  = Returned None (afterSend diskID None took sdk' st).
Proof. intros H. simpl. now rewrite (send_eq _ _ _ _ _ H). Qed.

(** One iteration whose request fails. *)
Lemma RemoveDisk_loop_failure (fuel : nat) (ctx : context.Context) (diskID : string)
    (lastError : option error) (st : State) (err : error) (took : N) (sdk' : SDKState) :
  RemoveSend (conn (self st)) diskID (sdk st) = (Some err, took, sdk') ->
  RemoveDisk_loop (S fuel) ctx diskID lastError st
  = match selectAfterDone (5 * time.Second)%N ctx
            (afterSend diskID (Some err) took sdk' st) with
    | (TimerFired, st2) =>
        RemoveDisk_loop fuel ctx diskID (Some (errRemoveFailed diskID err)) st2
    | (CtxDone, st2) =>
        Returned (Some (TimeoutError diskID (Some (errRemoveFailed diskID err)))) st2
    end.
Proof. intros H. simpl. now rewrite (send_eq _ _ _ _ _ H). Qed.

(** C4: when every removal request fails and the context is already done
    at the call, [RemoveDisk] makes one request, which runs for as long as
    it takes (the context is looked at after it, in the [select]), makes
    no second one, does not wait, and returns the timeout error, which
    wraps the failure of that request. *)
Theorem RemoveDisk_context_already_done :
  forall (fuel : nat) (ctx : context.Context) (diskID : string) (st : State)
         (cancelled : N),
    (forall c d s, fst (fst (RemoveSend c d s)) <> None) ->
    context.doneAt ctx = Some cancelled ->
    (cancelled <= clock st)%N ->
    exists (err : error) (st' : State),
      fst (fst (RemoveSend (conn (self st)) diskID (sdk st))) = Some err
      /\ RemoveDisk (S fuel) ctx diskID st
         = Returned (Some (TimeoutError diskID (Some (errRemoveFailed diskID err)))) st'
      /\ events st'
         = (events st ++ [EvRemoveSend diskID (Some err); EvSelect CtxDone])%list
      /\ attempts (events st') = attempts (events st) + 1
      /\ clock st'
         = (clock st + snd (fst (RemoveSend (conn (self st)) diskID (sdk st))))%N
      /\ Unwrap (TimeoutError diskID (Some (errRemoveFailed diskID err)))
         = Some (errRemoveFailed diskID err)
      /\ Unwrap (errRemoveFailed diskID err) = Some err.
Proof.
  intros fuel ctx diskID st cancelled Hfails Hdone Hle.
  destruct (RemoveSend (conn (self st)) diskID (sdk st)) as [[r took] sdk'] eqn:Hsend.
  destruct r as [err|].
  2:{ exfalso. apply (Hfails (conn (self st)) diskID (sdk st)). now rewrite Hsend. }
  exists err.
  exists (afterSelect CtxDone (clock st + took)
            (afterSend diskID (Some err) took sdk' st)).
  split; [reflexivity|]. split.
  - unfold RemoveDisk. rewrite (RemoveDisk_loop_failure _ _ _ _ _ _ _ _ Hsend).
    rewrite (select_done _ ctx _ cancelled Hdone).
    + reflexivity.
    + simpl. lia.
    + reflexivity.
  - simpl. rewrite <- app_assoc. simpl. split; [reflexivity|].
    split; [|repeat split; reflexivity].
    rewrite attempts_app. simpl. reflexivity.
Qed.

(** C5: when the first two removal requests fail and the third succeeds,
    and the context is not done before the second five-second wait is
    over, [RemoveDisk] returns [nil] after three requests and two waits;
    and in any iteration a request that succeeds ends the call at once,
    with no wait after it. *)
Theorem RemoveDisk_third_request_succeeds :
  forall (fuel : nat) (ctx : context.Context) (diskID : string) (st : State)
         (e1 e2 : error) (t1 t2 t3 : N) (s1 s2 s3 : SDKState),
    RemoveSend (conn (self st)) diskID (sdk st) = (Some e1, t1, s1) ->
    RemoveSend (conn (self st)) diskID s1 = (Some e2, t2, s2) ->
    RemoveSend (conn (self st)) diskID s2 = (None, t3, s3) ->
    match context.doneAt ctx with
    | None => True
    | Some cancelled =>
        (clock st + t1 + 5 * time.Second + t2 + 5 * time.Second < cancelled)%N
    end ->
    RemoveDisk (S (S (S fuel))) ctx diskID st
    = Returned None
        {| self := self st;
           clock := clock st + t1 + 5 * time.Second + t2 + 5 * time.Second + t3;
           sdk := s3;
           events := (events st ++
                       [ EvRemoveSend diskID (Some e1); EvSelect TimerFired;
                         EvRemoveSend diskID (Some e2); EvSelect TimerFired;
                         EvRemoveSend diskID None ])%list |}
    /\ (forall (fuel' : nat) (ctx' : context.Context) (lastError : option error)
               (st0 : State) (t : N) (s' : SDKState),
          RemoveSend (conn (self st0)) diskID (sdk st0) = (None, t, s') ->
          RemoveDisk_loop (S fuel') ctx' diskID lastError st0
          = Returned None
              {| self := self st0; clock := clock st0 + t; sdk := s';
                 events := (events st0 ++ [EvRemoveSend diskID None])%list |}).
Proof.
  intros fuel ctx diskID st e1 e2 t1 t2 t3 s1 s2 s3 H1 H2 H3 Hlive.
  split.
  - unfold RemoveDisk.
    rewrite (RemoveDisk_loop_failure _ _ _ _ _ _ _ _ H1).
    rewrite select_timer
      by (simpl; destruct (context.doneAt ctx); [unfold time.Second in *; lia | exact I]).
    rewrite (RemoveDisk_loop_failure _ ctx diskID _ _ e2 t2 s2) by exact H2.
    rewrite select_timer
      by (simpl; destruct (context.doneAt ctx); [unfold time.Second in *; lia | exact I]).
    rewrite (RemoveDisk_loop_success _ ctx diskID _ _ t3 s3) by exact H3.
    unfold afterSend, afterSelect. simpl.
    rewrite <- !app_assoc. reflexivity.
  - intros fuel' ctx' lastError st0 t s' Hok.
    now rewrite (RemoveDisk_loop_success _ _ _ _ _ _ _ Hok).
Qed.

End RemoveDiskFacts.

(* ===================================================================== *)
(** ** The wrapper is never written to                                    *)
(* ===================================================================== *)

Section WrapperFacts.
Context `{Env : Environment}.

Lemma send_self (diskID : string) (st : State) :
  self (snd (send diskID st)) = self st.
Proof.
  unfold send. destruct (RemoveSend _ _ _) as [[err took] sdk']. reflexivity.
Qed.

Lemma selectAfterDone_self (d : N) (ctx : context.Context) (st : State) :
  self (snd (selectAfterDone d ctx st)) = self st.
Proof.
  unfold selectAfterDone.
  destruct (context.doneAt ctx) as [cancelled|]; [|reflexivity].
  destruct (_ ?= _)%N; reflexivity.
Qed.

(** However long the loop has run, and whether or not it has returned,
    the object behind the receiver is the one it was called on. *)
Lemma RemoveDisk_loop_self (fuel : nat) (ctx : context.Context) (diskID : string)
    (lastError : option error) (st : State) :
  self (stateOf (RemoveDisk_loop fuel ctx diskID lastError st)) = self st.
Proof.
  revert lastError st. induction fuel as [|fuel IH]; intros lastError st; simpl.
  - reflexivity.
  - pose proof (send_self diskID st) as Hsend.
    destruct (send diskID st) as [[err|] st1]; simpl in Hsend; [|exact Hsend].
    pose proof (selectAfterDone_self (5 * time.Second) ctx st1) as Hsel.
    destruct (selectAfterDone (5 * time.Second)%N ctx st1) as [[|] st2]; simpl in Hsel.
    + rewrite IH. congruence.
    + simpl. congruence.
Qed.

Lemma call_self (c : Call) (st : State) : self (snd (call c st)) = self st.
Proof.
  destruct c; simpl; try reflexivity. apply RemoveDisk_loop_self.
Qed.

Lemma calls_self (cs : list Call) (st : State) : self (snd (calls cs st)) = self st.
Proof.
  revert st. induction cs as [|c cs IH]; intros st; simpl.
  - reflexivity.
  - pose proof (call_self c st) as Hc.
    destruct (call c st) as [v st1]. simpl in Hc.
    specialize (IH st1). destruct (calls cs st1) as [vs st2]. simpl in *. congruence.
Qed.

(** The wrapper that [New] returns holds the URL it was given. *)
Lemma New_url (endpoint username password caFile : string) (caCert : list byte)
    (insecure : bool) (extraHeaders : gmap string string) (log : Logger)
    (o : oVirtClient) :
  New endpoint username password caFile caCert insecure extraHeaders log = Ok o ->
  url o = endpoint.
Proof.
  unfold New.
  destruct (validateURL endpoint); [discriminate|].
  destruct (validateUsername username); [discriminate|].
  destruct (_ && _); [discriminate|].
  destruct (Build _); [|discriminate].
  destruct (createTLSConfig _ _ _); [|discriminate].
  now intros [= <-].
Qed.

(** C9: for a wrapper returned by [New], whatever methods are called on it
    and in whatever order ([RemoveDisk] among them, run for any number of
    iterations), the object keeps its connection, HTTP client, logger and
    URL, so each accessor returns after the calls what it returned before
    them. *)
Theorem wrapper_fields_are_stable :
  forall (endpoint username password caFile : string) (caCert : list byte)
         (insecure : bool) (extraHeaders : gmap string string) (log : Logger)
         (o : oVirtClient),
    New endpoint username password caFile caCert insecure extraHeaders log = Ok o ->
    GetURL o = endpoint
    /\ forall (cs : list Call) (st : State),
         self st = o ->
         self (snd (calls cs st)) = o
         /\ fst (call CallGetSDKClient (snd (calls cs st))) = VConnection (GetSDKClient o)
         /\ fst (call CallGetHTTPClient (snd (calls cs st))) = VHTTPClient (GetHTTPClient o)
         /\ fst (call CallGetURL (snd (calls cs st))) = VString endpoint
         /\ conn (self (snd (calls cs st))) = conn o
         /\ httpClient (self (snd (calls cs st))) = httpClient o
         /\ logger (self (snd (calls cs st))) = logger o
         /\ url (self (snd (calls cs st))) = url o.
Proof.
  intros endpoint username password caFile caCert insecure extraHeaders log o Hnew.
  pose proof (New_url _ _ _ _ _ _ _ _ _ Hnew) as Hurl.
  split; [exact Hurl|].
  intros cs st Hself.
  pose proof (calls_self cs st) as Hkeep. rewrite Hself in Hkeep.
  simpl. unfold GetURL. rewrite Hkeep, Hurl. repeat split; reflexivity.
Qed.

End WrapperFacts.

(* ===================================================================== *)
(** ** The wrapper's methods in concrete environments                     *)
(* ===================================================================== *)

(** Every removal fails and the context was done at instant 0; the call
    at instant 1000 makes its one request and times out. *)
Lemma RemoveDisk_context_already_done_example :
  exists st',
    RemoveDisk (Env := scenario.environment scenario.hostile) 1
      {| context.doneAt := Some 0%N |} "disk-1" (scenario.initial scenario.hostile 1000)
    = Returned
        (Some (TimeoutError "disk-1"
                 (Some (errRemoveFailed "disk-1" (errorString "disk is locked")))))
        st'
    /\ events st'
       = [EvRemoveSend "disk-1" (Some (errorString "disk is locked")); EvSelect CtxDone].
Proof.
  destruct (RemoveDisk_context_already_done
              (Env := scenario.environment scenario.hostile) 0
              {| context.doneAt := Some 0%N |} "disk-1"
              (scenario.initial scenario.hostile 1000) 0%N
              (fun c d s H => ltac:(discriminate H)) eq_refl ltac:(discriminate))
    as (err & st' & Herr & Hrun & Hev & _).
  simpl in Herr. injection Herr as <-.
  exists st'. split; [exact Hrun | exact Hev].
Defined.

(** Two failures, then a success, under a deadline of one minute: the
    call returns [nil] at 10.75 s, after three requests of 0.25 s each
    and two waits of 5 s. *)
Lemma RemoveDisk_third_request_succeeds_example :
  RemoveDisk (Env := scenario.environment scenario.flaky) 3
    {| context.doneAt := Some (60 * time.Second)%N |} "disk-1"
    (scenario.initial scenario.flaky 0)
  = Returned None
      (@Build_State (scenario.environment scenario.flaky)
         (scenario.client scenario.flaky) 10750000000%N 3%nat
         [ EvRemoveSend "disk-1" (Some (errorString "disk is locked")); EvSelect TimerFired;
           EvRemoveSend "disk-1" (Some (errorString "disk is locked")); EvSelect TimerFired;
           EvRemoveSend "disk-1" None ]).
Proof.
  exact (proj1 (RemoveDisk_third_request_succeeds
                  (Env := scenario.environment scenario.flaky) 0
                  {| context.doneAt := Some (60 * time.Second)%N |} "disk-1"
                  (scenario.initial scenario.flaky 0)
                  (errorString "disk is locked") (errorString "disk is locked")
                  250000000%N 250000000%N 250000000%N 1%nat 2%nat 3%nat
                  eq_refl eq_refl eq_refl eq_refl)).
Defined.

(** The wrapper built for the engine keeps its fields through an accessor
    call, a [RemoveDisk] run of up to five iterations and another
    accessor call. *)
Lemma wrapper_fields_are_stable_example :
  self (snd (calls (Env := scenario.environment scenario.flaky)
               [ CallGetURL;
                 CallRemoveDisk 5 {| context.doneAt := None |} "disk-1";
                 CallGetHTTPClient ]
               (scenario.initial scenario.flaky 0)))
  = scenario.client scenario.flaky
  /\ fst (call CallGetURL
            (snd (calls (Env := scenario.environment scenario.flaky)
                    [ CallGetURL;
                      CallRemoveDisk 5 {| context.doneAt := None |} "disk-1";
                      CallGetHTTPClient ]
                    (scenario.initial scenario.flaky 0))))
     = VString scenario.engineURL.
Proof.
  destruct (proj2 (wrapper_fields_are_stable
                     (Env := scenario.environment scenario.flaky)
                     scenario.engineURL "admin@internal" "x" "" [] true ∅ tt
                     (scenario.client scenario.flaky) ltac:(reflexivity))
              [ CallGetURL;
                CallRemoveDisk 5 {| context.doneAt := None |} "disk-1";
                CallGetHTTPClient ]
              (scenario.initial scenario.flaky 0) eq_refl)
    as (Hself & _ & _ & Hurl & _).
  split; [exact Hself | exact Hurl].
Defined.

(* ===================================================================== *)
(** ** Further properties of the package                                  *)
(* ===================================================================== *)

(** X1: [validateUsername] accepts exactly the user names that consist of
    a non-empty part without [@], one [@], and a non-empty rest; the rest
    may contain further [@]. *)
Theorem validateUsername_accepts_iff :
  forall username : string,
    validateUsername username = None <->
    exists p r, username = p ++ "@" ++ r /\ p <> "" /\ r <> ""
                /\ strings.Count p "@" = 0.
Proof. exact validatorFacts.validateUsername_None_iff. Qed.

Section FurtherFacts.
Context `{Env : Environment}.

Lemma New_invalid_username (url username password caFile : string) (caCert : list byte)
    (insecure : bool) (extraHeaders : gmap string string) (logger : Logger) (err : error) :
  validateURL url = None ->
  validateUsername username = Some err ->
  New url username password caFile caCert insecure extraHeaders logger
  = Err (InvalidUsername username err).
Proof. intros Hurl Huser. unfold New. now rewrite Hurl, Huser. Qed.

(** Once the user name is accepted, no error of [New] is the user name
    error. *)
Lemma New_valid_username (url username password caFile : string) (caCert : list byte)
    (insecure : bool) (extraHeaders : gmap string string) (logger : Logger) :
  validateURL url = None ->
  validateUsername username = None ->
  forall name err,
    New url username password caFile caCert insecure extraHeaders logger
    <> Err (InvalidUsername name err).
Proof.
  intros Hurl Huser name err. unfold New. rewrite Hurl, Huser.
  destruct (_ && _); [discriminate|].
  destruct (Build _) as [c|e]; [|unfold ConnectionBuildError, InvalidUsername; discriminate].
  destruct (createTLSConfig _ _ _) as [cfg|e];
    [discriminate | unfold CertificateError, InvalidUsername; discriminate].
Qed.

(** X2: for a URL that passes its check, [New] fails with the user name
    error when the user name has no [@], nothing before its first [@], or
    nothing after it; and a user name with exactly one [@] between two
    non-empty parts passes the user name check. *)
Theorem New_username_check :
  forall (url username password caFile : string) (caCert : list byte) (insecure : bool)
         (extraHeaders : gmap string string) (logger : Logger),
    validateURL url = None ->
    (strings.Count username "@" = 0 ->
     New url username password caFile caCert insecure extraHeaders logger
     = Err (InvalidUsername username errUsernameAtSign))
    /\ (forall r, username = "@" ++ r ->
        New url username password caFile caCert insecure extraHeaders logger
        = Err (InvalidUsername username errUsernameNoUser))
    /\ (forall p, username = p ++ "@" -> p <> "" -> strings.Count p "@" = 0 ->
        New url username password caFile caCert insecure extraHeaders logger
        = Err (InvalidUsername username errUsernameNoScope))
    /\ (forall p r, username = p ++ "@" ++ r -> p <> "" -> r <> "" ->
        strings.Count username "@" = 1 ->
        validateUsername username = None
        /\ forall name err,
             New url username password caFile caCert insecure extraHeaders logger
             <> Err (InvalidUsername name err)).
Proof.
  intros url username password caFile caCert insecure extraHeaders logger Hurl.
  split; [|split; [|split]].
  - intros Hcnt. apply New_invalid_username; [assumption|].
    now apply validatorFacts.validateUsername_absent.
  - intros r ->. apply New_invalid_username; [assumption|].
    apply (validatorFacts.validateUsername_split "" r). reflexivity.
  - intros p -> Hp Hcnt. apply New_invalid_username; [assumption|].
    change (p ++ "@") with (p ++ String "@" "").
    rewrite validatorFacts.validateUsername_split by assumption.
    destruct p as [|a p]; [congruence | reflexivity].
  - intros p r -> Hp Hr Hone.
    assert (Hok : validateUsername (p ++ "@" ++ r) = None).
    { apply validatorFacts.validateUsername_None_iff. exists p, r.
      repeat split; try assumption.
      change (p ++ "@" ++ r) with (p ++ String "@" r) in Hone.
      rewrite stringsFacts.Count_app in Hone. simpl in Hone. lia. }
    split; [exact Hok|]. now apply New_valid_username.
Qed.

(** X3: the configuration that [createTLSConfig] returns has no root
    pool: the pool assembled from the system's certificates, the inline
    bytes and the file is not stored in it. *)
Theorem createTLSConfig_RootCAs_unset :
  forall (caFile : string) (caCert : list byte) (insecure : bool)
         (cfg : tls.Config CertPool),
    createTLSConfig caFile caCert insecure = Ok cfg ->
    tls.RootCAs cfg = None.
Proof.
  intros caFile caCert insecure cfg Hok.
  apply createTLSConfig_Ok in Hok. now subst cfg.
Qed.

(** X4: [New] with [insecure = true] and no CA material returns a wrapper
    as soon as the URL and the user name pass and the SDK builds the
    connection; the wrapper holds that connection and the URL, and its
    HTTP client skips verification. *)
Theorem New_insecure_succeeds :
  forall (url username password : string) (extraHeaders : gmap string string)
         (logger : Logger) (c : Connection),
    validateURL url = None ->
    validateUsername username = None ->
    Build (connBuilderOf url username password "" [] true extraHeaders logger) = Ok c ->
    exists o cfg,
      New url username password "" [] true extraHeaders logger = Ok o
      /\ GetURL o = url
      /\ GetSDKClient o = c
      /\ GetHTTPClient o
         = {| http.Transport_ := Some {| http.TLSClientConfig := Some cfg |} |}
      /\ tls.InsecureSkipVerify cfg = true.
Proof.
  intros url username password extraHeaders logger c Hurl Huser Hbuild.
  eexists. eexists. split.
  - rewrite New_past_checks by auto. rewrite Hbuild. reflexivity.
  - repeat split.
Qed.

(** The loop with any [lastError] on entry, when every request fails and
    the context is never done. *)
Lemma RemoveDisk_loop_runs_on (fuel : nat) (ctx : context.Context) (diskID : string)
    (lastError : option error) (st : State) :
  (forall c d s, fst (fst (RemoveSend c d s)) <> None) ->
  context.doneAt ctx = None ->
  exists lastError' st',
    RemoveDisk_loop fuel ctx diskID lastError st = Running lastError' st'
    /\ attempts (events st') = attempts (events st) + fuel
    /\ waits (events st') = waits (events st) + fuel.
Proof.
  intros Hfails Hnever. revert lastError st.
  induction fuel as [|fuel IH]; intros lastError st.
  - exists lastError, st. simpl. repeat split; lia.
  - destruct (RemoveSend (conn (self st)) diskID (sdk st)) as [[r took] sdk'] eqn:Hsend.
    destruct r as [err|].
    2:{ exfalso. apply (Hfails (conn (self st)) diskID (sdk st)). now rewrite Hsend. }
    rewrite (RemoveDisk_loop_failure _ _ _ _ _ _ _ _ Hsend).
    rewrite select_timer by now rewrite Hnever.
    destruct (IH (Some (errRemoveFailed diskID err))
                (afterSelect TimerFired
                   (clock (afterSend diskID (Some err) took sdk' st) + 5 * time.Second)
                   (afterSend diskID (Some err) took sdk' st)))
      as (lastError' & st' & Hrun & Hatt & Hwait).
    exists lastError', st'. split; [exact Hrun|].
    rewrite Hatt, Hwait. simpl.
    rewrite !attempts_app, !waits_app. simpl. lia.
Qed.

(** X5: the loop has no bound of its own: when every request fails and
    the context is never done, [RemoveDisk] has not returned after any
    number of iterations, each of which made one request and one wait. *)
Theorem RemoveDisk_unbounded :
  forall (fuel : nat) (ctx : context.Context) (diskID : string) (st : State),
    (forall c d s, fst (fst (RemoveSend c d s)) <> None) ->
    context.doneAt ctx = None ->
    exists lastError st',
      RemoveDisk fuel ctx diskID st = Running lastError st'
      /\ attempts (events st') = attempts (events st) + fuel
      /\ waits (events st') = waits (events st) + fuel.
Proof.
  intros fuel ctx diskID st Hfails Hnever.
  now apply RemoveDisk_loop_runs_on.
Qed.

End FurtherFacts.

(** The user name [admin] has no [@]. *)
Lemma New_username_check_example :
  New (Env := scenario.environment scenario.flaky)
      scenario.engineURL "admin" "x" "" [] true ∅ tt
  = Err (InvalidUsername "admin" errUsernameAtSign).
Proof.
  exact (proj1 (New_username_check (Env := scenario.environment scenario.flaky)
                  scenario.engineURL "admin" "x" "" [] true ∅ tt eq_refl) eq_refl).
Defined.

(** Inline bytes were accepted into the pool, and the configuration has
    no pool. *)
Lemma createTLSConfig_RootCAs_unset_example :
  exists cfg,
    createTLSConfig (Env := scenario.environment scenario.flaky)
      "" scenario.garbage false = Ok cfg
    /\ tls.RootCAs cfg = None.
Proof.
  eexists. split; [reflexivity|].
  exact (createTLSConfig_RootCAs_unset (Env := scenario.environment scenario.flaky)
           "" scenario.garbage false _ eq_refl).
Defined.

(** The scenario of the specification with an [http://] URL. *)
Lemma New_insecure_succeeds_example :
  exists o cfg,
    New (Env := scenario.environment scenario.flaky)
        scenario.engineURL "admin@internal" "x" "" [] true ∅ tt = Ok o
    /\ GetURL o = scenario.engineURL
    /\ GetSDKClient o
       = connBuilderOf (Env := scenario.environment scenario.flaky)
           scenario.engineURL "admin@internal" "x" "" [] true ∅ tt
    /\ GetHTTPClient o
       = {| http.Transport_ := Some {| http.TLSClientConfig := Some cfg |} |}
    /\ tls.InsecureSkipVerify cfg = true.
Proof.
  exact (New_insecure_succeeds (Env := scenario.environment scenario.flaky)
           scenario.engineURL "admin@internal" "x" ∅ tt _ eq_refl eq_refl eq_refl).
Defined.

(** Four iterations against an engine that always fails, with a context
    that is never done. *)
Lemma RemoveDisk_unbounded_example :
  exists lastError st',
    RemoveDisk (Env := scenario.environment scenario.hostile) 4
      {| context.doneAt := None |} "disk-1" (scenario.initial scenario.hostile 0)
    = Running lastError st'
    /\ attempts (events st') = 4
    /\ waits (events st') = 4.
Proof.
  exact (RemoveDisk_unbounded (Env := scenario.environment scenario.hostile) 4
           {| context.doneAt := None |} "disk-1" (scenario.initial scenario.hostile 0)
           (fun c d s H => ltac:(discriminate H)) eq_refl).
Defined.

(* ===================================================================== *)
(** ** The factory, case by case                                          *)
(* ===================================================================== *)

(** Nothing but [https://] itself both starts and ends with [https://]
    in fewer than sixteen bytes: the word has no proper overlap with
    itself. *)
Lemma https_overlap (s t : string) :
  "https://" ++ t = s ++ "https://" ->
  t = "" \/ exists t', t = t' ++ "https://".
Proof.
  intros H.
  destruct s as [|c1 s]; [left|].
  { change ("" ++ "https://") with ("https://" ++ "") in H.
    now apply (inj (String.append "https://")) in H. }
  destruct s as [|c2 s]; [discriminate H|].
  destruct s as [|c3 s]; [discriminate H|].
  destruct s as [|c4 s]; [discriminate H|].
  destruct s as [|c5 s]; [discriminate H|].
  destruct s as [|c6 s]; [discriminate H|].
  destruct s as [|c7 s]; [discriminate H|].
  destruct s as [|c8 s]; [discriminate H|].
  right. exists s. now injection H.
Qed.

(** X7: a URL that starts with [https://] passes [validateURL] only when
    it is [https://] itself or also ends with [https://]; every other
    [https://] URL is refused. *)
Theorem validateURL_https_prefix_iff :
  forall t : string,
    validateURL ("https://" ++ t) = None <->
    t = "" \/ exists t', t = t' ++ "https://".
Proof.
  intros t. rewrite validatorFacts.validateURL_None_iff. split.
  - intros [[u Hu] | [s Hs]].
    + discriminate Hu.
    + now apply (https_overlap s).
  - intros [-> | [t' ->]]; right.
    + now exists "".
    + now exists ("https://" ++ t').
Qed.

Section FactoryCases.
Context `{Env : Environment}.

Lemma trust_test_true (caFile : string) (caCert : list byte) (insecure : bool) :
  String.eqb caFile "" && (List.length caCert =? 0)%nat && negb insecure = true ->
  caFile = "" /\ caCert = [] /\ insecure = false.
Proof.
  rewrite !andb_true_iff, String.eqb_eq, Nat.eqb_eq, negb_true_iff.
  intros [[-> Hlen] ->]. destruct caCert; [auto | discriminate].
Qed.

Lemma trust_test_cases (caFile : string) (caCert : list byte) (insecure : bool) :
  (String.eqb caFile "" && (List.length caCert =? 0)%nat && negb insecure = true
   /\ caFile = "" /\ caCert = [] /\ insecure = false)
  \/ (String.eqb caFile "" && (List.length caCert =? 0)%nat && negb insecure = false
      /\ (caFile <> "" \/ caCert <> [] \/ insecure = true)).
Proof.
  destruct (String.eqb caFile "" && (List.length caCert =? 0)%nat && negb insecure) eqn:Ht.
  - left. split; [reflexivity|]. now apply trust_test_true.
  - right. split; [reflexivity|].
    destruct (String.eqb_spec caFile ""); [|now left].
    destruct caCert; [|right; left; discriminate].
    destruct insecure; [now right; right|]. subst. discriminate Ht.
Qed.

(** X8: [New] succeeds exactly when the URL and the user name pass their
    checks, one trust mechanism is given, the SDK builds the connection
    and [createTLSConfig] succeeds; the wrapper then holds that
    connection, the logger and the URL as given, and an HTTP client whose
    transport carries the fixed TLS profile with [insecure] as its
    skip-verify flag. *)
Theorem New_Ok_iff :
  forall (url username password caFile : string) (caCert : list byte) (insecure : bool)
         (extraHeaders : gmap string string) (logger : Logger) (o : oVirtClient),
    New url username password caFile caCert insecure extraHeaders logger = Ok o <->
    validateURL url = None
    /\ validateUsername username = None
    /\ (caFile <> "" \/ caCert <> [] \/ insecure = true)
    /\ createTLSConfig caFile caCert insecure = Ok (tlsProfile insecure)
    /\ exists c,
         Build (connBuilderOf url username password caFile caCert insecure
                  extraHeaders logger) = Ok c
         /\ o = {| conn := c;
                   httpClient :=
                     {| http.Transport_ :=
                          Some {| http.TLSClientConfig := Some (tlsProfile insecure) |} |};
                   logger := logger;
                   url := url |}.
Proof.
  intros url username password caFile caCert insecure extraHeaders logger o. split.
  - intros Hnew.
    destruct (validateURL url) as [e|] eqn:Hurl.
    { unfold New in Hnew. rewrite Hurl in Hnew. discriminate. }
    destruct (validateUsername username) as [e|] eqn:Huser.
    { unfold New in Hnew. rewrite Hurl, Huser in Hnew. discriminate. }
    destruct (trust_test_cases caFile caCert insecure) as [[Ht _] | [_ Htrust]].
    { unfold New in Hnew. rewrite Hurl, Huser, Ht in Hnew. discriminate. }
    rewrite New_past_checks in Hnew by assumption.
    destruct (Build _) as [c|e] eqn:Hbuild; [|discriminate].
    destruct (createTLSConfig caFile caCert insecure) as [cfg|e] eqn:Htls; [|discriminate].
    pose proof (createTLSConfig_Ok _ _ _ _ Htls) as ->.
    injection Hnew as <-.
    repeat split; try assumption. now exists c.
  - intros (Hurl & Huser & Htrust & Htls & c & Hbuild & ->).
    rewrite New_past_checks by assumption. now rewrite Hbuild, Htls.
Qed.

(** X9: an error of [New] is one of five, in the order of the checks: the
    URL error; with the URL accepted, the user name error around the
    validator's reason; with both accepted, the missing-trust error when
    no mechanism is given; then the SDK's error in the connection error;
    and last the certificate error around the reason of
    [createTLSConfig].  Each but the missing-trust error unwraps to its
    cause. *)
Theorem New_error_cases :
  forall (url username password caFile : string) (caCert : list byte) (insecure : bool)
         (extraHeaders : gmap string string) (logger : Logger) (e : error),
    New url username password caFile caCert insecure extraHeaders logger = Err e ->
    ((validateURL url = Some errURLScheme /\ e = InvalidURL url errURLScheme)
     \/ (validateURL url = None
         /\ exists cause, validateUsername username = Some cause
                          /\ e = InvalidUsername username cause)
     \/ (validateURL url = None /\ validateUsername username = None
         /\ caFile = "" /\ caCert = [] /\ insecure = false
         /\ e = MissingTrustConfiguration)
     \/ (validateURL url = None /\ validateUsername username = None
         /\ exists cause,
              Build (connBuilderOf url username password caFile caCert insecure
                       extraHeaders logger) = Err cause
              /\ e = ConnectionBuildError cause)
     \/ (validateURL url = None /\ validateUsername username = None
         /\ exists c cause,
              Build (connBuilderOf url username password caFile caCert insecure
                       extraHeaders logger) = Ok c
              /\ createTLSConfig caFile caCert insecure = Err cause
              /\ e = CertificateError cause))
    /\ (e = MissingTrustConfiguration \/ exists cause, Unwrap e = Some cause).
Proof.
  intros url username password caFile caCert insecure extraHeaders logger e Hnew.
  assert (Hcases :
    (validateURL url = Some errURLScheme /\ e = InvalidURL url errURLScheme)
    \/ (validateURL url = None
        /\ exists cause, validateUsername username = Some cause
                         /\ e = InvalidUsername username cause)
    \/ (validateURL url = None /\ validateUsername username = None
        /\ caFile = "" /\ caCert = [] /\ insecure = false
        /\ e = MissingTrustConfiguration)
    \/ (validateURL url = None /\ validateUsername username = None
        /\ exists cause,
             Build (connBuilderOf url username password caFile caCert insecure
                      extraHeaders logger) = Err cause
             /\ e = ConnectionBuildError cause)
    \/ (validateURL url = None /\ validateUsername username = None
        /\ exists c cause,
             Build (connBuilderOf url username password caFile caCert insecure
                      extraHeaders logger) = Ok c
             /\ createTLSConfig caFile caCert insecure = Err cause
             /\ e = CertificateError cause)).
  { destruct (validatorFacts.validateURL_cases url) as [Hurl|Hurl].
    2:{ left. rewrite (New_invalid_url _ _ _ _ _ _ _ _ _ Hurl) in Hnew.
        injection Hnew as <-. auto. }
    right.
    destruct (validateUsername username) as [cause|] eqn:Huser.
    { left. unfold New in Hnew. rewrite Hurl, Huser in Hnew.
      injection Hnew as <-. eauto. }
    right.
    destruct (trust_test_cases caFile caCert insecure)
      as [[Ht (-> & -> & ->)] | [_ Htrust]].
    { left. unfold New in Hnew. rewrite Hurl, Huser in Hnew. simpl in Hnew.
      injection Hnew as <-. auto 10. }
    right.
    rewrite New_past_checks in Hnew by assumption.
    destruct (Build _) as [c|cause] eqn:Hbuild.
    - right. destruct (createTLSConfig caFile caCert insecure) as [cfg|cause] eqn:Htls;
        [discriminate|].
      injection Hnew as <-. eauto 10.
    - left. injection Hnew as <-. eauto 10. }
  split; [exact Hcases|].
  destruct Hcases as [[_ ->] | [(_ & cause & _ & ->) | [(_ & _ & _ & _ & _ & ->)
    | [(_ & _ & cause & _ & ->) | (_ & _ & c & cause & _ & _ & ->)]]]];
    [right | right | left | right | right]; try reflexivity; eexists; reflexivity.
Qed.

(** X10: [createTLSConfig] succeeds, and then with the fixed profile,
    exactly when the inline bytes are empty or parse and the file name is
    empty or names a readable file whose contents parse; its errors are
    the inline error, the read error around the file system's reason, and
    the file's parse error.  A host without a system pool makes no
    difference. *)
Theorem createTLSConfig_outcomes :
  forall (caFile : string) (caCert : list byte) (insecure : bool),
    (forall cfg,
       createTLSConfig caFile caCert insecure = Ok cfg <->
       cfg = tlsProfile insecure
       /\ (caCert = [] \/ snd (AppendCertsFromPEM startPool caCert) = true)
       /\ (caFile = ""
           \/ exists pem, ReadFile caFile = Ok pem
                          /\ snd (AppendCertsFromPEM (inlinePool caCert) pem) = true))
    /\ (forall e,
          createTLSConfig caFile caCert insecure = Err e ->
          (caCert <> [] /\ e = errInlineNotPEM)
          \/ (caFile <> "" /\ exists cause, ReadFile caFile = Err cause
                                            /\ e = errFileRead caFile cause)
          \/ (caFile <> "" /\ e = errFileNotPEM caFile)).
Proof.
  intros caFile caCert insecure.
  unfold createTLSConfig, inlinePool. fold startPool. fold (tlsProfile insecure).
  destruct caCert as [|b caCert]; simpl.
  - destruct (String.eqb_spec caFile "") as [->|Hfile]; simpl.
    + split.
      * intros cfg. split; [intros [= <-]; auto | intros (-> & _); reflexivity].
      * discriminate.
    + destruct (ReadFile caFile) as [pem|cause] eqn:Hread.
      * destruct (AppendCertsFromPEM startPool pem) as [pool ok] eqn:Happ.
        destruct ok; simpl; split.
        -- intros cfg. split; [intros [= <-] | intros (-> & _); reflexivity].
           repeat split; auto. right. exists pem. now rewrite Happ.
        -- discriminate.
        -- intros cfg. split; [discriminate|].
           intros (_ & _ & [Hf | (pem' & [= <-] & Hok)]); [congruence|].
           rewrite Happ in Hok. discriminate.
        -- intros e [= <-]. right. right. auto.
      * split.
        -- intros cfg. split; [discriminate|].
           intros (_ & _ & [Hf | (pem' & Hpem & _)]); congruence.
        -- intros e [= <-]. right. left. eauto.
  - destruct (AppendCertsFromPEM startPool (b :: caCert)) as [pool ok] eqn:Hinl.
    destruct ok; simpl.
    2:{ split.
        - intros cfg. split; [discriminate|].
          intros (_ & [Hc | Hc] & _); discriminate.
        - intros e [= <-]. left. split; [discriminate | reflexivity]. }
    destruct (String.eqb_spec caFile "") as [->|Hfile]; simpl.
    + split.
      * intros cfg. split; [intros [= <-]; auto | intros (-> & _); reflexivity].
      * discriminate.
    + destruct (ReadFile caFile) as [pem|cause] eqn:Hread.
      * destruct (AppendCertsFromPEM pool pem) as [pool' ok] eqn:Happ.
        destruct ok; simpl; split.
        -- intros cfg. split; [intros [= <-] | intros (-> & _); reflexivity].
           repeat split; auto. right. exists pem. now rewrite Happ.
        -- discriminate.
        -- intros cfg. split; [discriminate|].
           intros (_ & _ & [Hf | (pem' & [= <-] & Hok)]); [congruence|].
           rewrite Happ in Hok. discriminate.
        -- intros e [= <-]. right. right. auto.
      * split.
        -- intros cfg. split; [discriminate|].
           intros (_ & _ & [Hf | (pem' & Hpem & _)]); congruence.
        -- intros e [= <-]. right. left. eauto.
Qed.

(** X11: past its three checks [New] asks the SDK to build from a builder
    that holds the URL, the user name, the password, the CA file name,
    the CA bytes, the insecure flag and the logger as given; the extra
    headers are set on the builder exactly when the map is not empty. *)
Theorem New_builder_fields :
  forall (url username password caFile : string) (caCert : list byte) (insecure : bool)
         (extraHeaders : gmap string string) (logger : Logger),
    validateURL url = None ->
    validateUsername username = None ->
    caFile <> "" \/ caCert <> [] \/ insecure = true ->
    exists b,
      (forall cause, Build b = Err cause ->
         New url username password caFile caCert insecure extraHeaders logger
         = Err (ConnectionBuildError cause))
      /\ (forall c, Build b = Ok c ->
            forall o,
              New url username password caFile caCert insecure extraHeaders logger = Ok o ->
              GetSDKClient o = c)
      /\ ovirtsdk4.url b = Some url
      /\ ovirtsdk4.username b = Some username
      /\ ovirtsdk4.password b = Some password
      /\ ovirtsdk4.caFile b = Some caFile
      /\ ovirtsdk4.caCert b = Some caCert
      /\ ovirtsdk4.insecure b = Some insecure
      /\ ovirtsdk4.logFunc b = Some logger
      /\ (extraHeaders = ∅ -> ovirtsdk4.headers b = None)
      /\ (extraHeaders <> ∅ -> ovirtsdk4.headers b = Some extraHeaders).
Proof.
  intros url username password caFile caCert insecure extraHeaders logger
         Hurl Huser Htrust.
  exists (connBuilderOf url username password caFile caCert insecure extraHeaders logger).
  split; [|split].
  - intros cause Hbuild. rewrite New_past_checks by assumption. now rewrite Hbuild.
  - intros c Hbuild o. rewrite New_past_checks by assumption. rewrite Hbuild.
    destruct (createTLSConfig _ _ _); [|discriminate]. now intros [= <-].
  - unfold connBuilderOf.
    destruct (0 <? size extraHeaders)%nat eqn:Hsize; simpl;
      repeat split; try reflexivity; try (intros _; reflexivity).
    + intros Hempty. subst extraHeaders. rewrite map_size_empty in Hsize. discriminate.
    + intros Hne. apply Nat.ltb_ge in Hsize.
      assert (size extraHeaders = 0) as Hz by lia.
      apply map_size_empty_iff in Hz. contradiction.
Qed.

End FactoryCases.

(* ===================================================================== *)
(** ** The retry loop in general                                          *)
(* ===================================================================== *)

Section RetryLoop.
Context `{Env : Environment}.

Lemma send_clock (diskID : string) (st : State) :
  (clock st <= clock (snd (send diskID st)))%N
  /\ events (snd (send diskID st))
     = (events st ++ [EvRemoveSend diskID (fst (send diskID st))])%list.
Proof.
  unfold send. destruct (RemoveSend _ _ _) as [[err took] sdk']. simpl.
  split; [lia | reflexivity].
Qed.

(** The [select] returns through the timer's case exactly [d] after it
    was entered, and through the other case only once the context is
    done, not before the instant it was entered. *)
Lemma selectAfterDone_cases (d : N) (ctx : context.Context) (st : State) :
  (0 < d)%N ->
  (fst (selectAfterDone d ctx st) = TimerFired
   /\ clock (snd (selectAfterDone d ctx st)) = (clock st + d)%N
   /\ events (snd (selectAfterDone d ctx st)) = (events st ++ [EvSelect TimerFired])%list
   /\ match context.doneAt ctx with
      | None => True
      | Some cancelled => (clock st + d <= cancelled)%N
      end)
  \/ (fst (selectAfterDone d ctx st) = CtxDone
      /\ events (snd (selectAfterDone d ctx st)) = (events st ++ [EvSelect CtxDone])%list
      /\ exists cancelled,
           context.doneAt ctx = Some cancelled
           /\ clock (snd (selectAfterDone d ctx st)) = N.max cancelled (clock st)
           /\ (cancelled <= clock st + d)%N).
Proof.
  intros Hd. unfold selectAfterDone.
  destruct (context.doneAt ctx) as [cancelled|]; [|left; simpl; auto].
  destruct (N.compare_spec (clock st + d) (N.max cancelled (clock st))) as [Heq|Hlt|Hgt].
  - destruct (selectBoth (clock st + d)); simpl.
    + left. repeat split. lia.
    + right. repeat split. exists cancelled. repeat split; lia.
  - left. simpl. repeat split. lia.
  - right. simpl. repeat split. exists cancelled. repeat split; lia.
Qed.

(** More fuel does not change what a run returned. *)
Lemma RemoveDisk_loop_fuel (fuel extra : nat) (ctx : context.Context) (diskID : string)
    (lastError : option error) (st : State) (r : option error) (st' : State) :
  RemoveDisk_loop fuel ctx diskID lastError st = Returned r st' ->
  RemoveDisk_loop (fuel + extra) ctx diskID lastError st = Returned r st'.
Proof.
  revert lastError st. induction fuel as [|fuel IH]; intros lastError st; simpl.
  - discriminate.
  - destruct (send diskID st) as [[err|] st1]; [|auto].
    destruct (selectAfterDone _ ctx st1) as [[|] st2]; auto.
Qed.

Lemma RemoveDisk_loop_timeout_clock (fuel : nat) (ctx : context.Context) (diskID : string)
    (lastError : option error) (st : State) (e : error) (st' : State) :
  RemoveDisk_loop fuel ctx diskID lastError st = Returned (Some e) st' ->
  exists cancelled,
    context.doneAt ctx = Some cancelled /\ (cancelled <= clock st')%N.
Proof.
  revert lastError st. induction fuel as [|fuel IH]; intros lastError st; simpl.
  - discriminate.
  - destruct (send diskID st) as [[err|] st1]; [|discriminate].
    destruct (selectAfterDone_cases (5 * time.Second) ctx st1 eq_refl)
      as [(Hc & _) | (Hc & _ & cancelled & Hdone & Hclock & _)];
      destruct (selectAfterDone _ ctx st1) as [c st2]; cbn [fst snd] in *; subst c.
    + apply IH.
    + intros [= _ <-]. exists cancelled. split; [assumption | lia].
Qed.

(** X12: [RemoveDisk] gives up only on the context: when it returns an
    error the context is done and the instant of the return is not before
    the instant at which the context became done; with a context that is
    never done it returns nothing but [nil]. *)
Theorem RemoveDisk_error_only_after_done :
  forall (fuel : nat) (ctx : context.Context) (diskID : string) (st : State)
         (r : option error) (st' : State),
    RemoveDisk fuel ctx diskID st = Returned r st' ->
    (forall e, r = Some e ->
       exists cancelled,
         context.doneAt ctx = Some cancelled /\ (cancelled <= clock st')%N)
    /\ (context.doneAt ctx = None -> r = None).
Proof.
  intros fuel ctx diskID st r st' Hrun.
  assert (Herr : forall e, r = Some e ->
            exists cancelled,
              context.doneAt ctx = Some cancelled /\ (cancelled <= clock st')%N).
  { intros e ->. exact (RemoveDisk_loop_timeout_clock _ _ _ _ _ _ _ Hrun). }
  split; [exact Herr|].
  intros Hnever. destruct r as [e|]; [|reflexivity].
  destruct (Herr e eq_refl) as (cancelled & Hdone & _). congruence.
Qed.

(** Once [n] timer waits would carry the clock past the instant at which
    the context is done, [n + 1] iterations are enough. *)
Lemma RemoveDisk_loop_returns (n : nat) (ctx : context.Context) (diskID : string)
    (cancelled : N) :
  context.doneAt ctx = Some cancelled ->
  forall (lastError : option error) (st : State),
    (cancelled < clock st + 5 * time.Second * N.of_nat n)%N ->
    exists r st', RemoveDisk_loop (S n) ctx diskID lastError st = Returned r st'.
Proof.
  intros Hdone. induction n as [|n IH]; intros lastError st Hpast.
  - simpl. pose proof (send_clock diskID st) as [Hclk _].
    destruct (send diskID st) as [[err|] st1]; simpl in Hclk; [|eauto].
    destruct (selectAfterDone_cases (5 * time.Second) ctx st1 eq_refl)
      as [(Hc & _ & _ & Hlive) | (Hc & _)];
      destruct (selectAfterDone _ ctx st1) as [c st2]; cbn [fst snd] in *; subst c.
    + rewrite Hdone in Hlive. unfold time.Second in *. lia.
    + eauto.
  - cbn [RemoveDisk_loop]. pose proof (send_clock diskID st) as [Hclk _].
    destruct (send diskID st) as [[err|] st1]; simpl in Hclk; [|eauto].
    destruct (selectAfterDone_cases (5 * time.Second) ctx st1 eq_refl)
      as [(Hc & Hclock & _) | (Hc & _)];
      destruct (selectAfterDone _ ctx st1) as [c st2]; cbn [fst snd] in *; subst c.
    + apply (IH (Some (errRemoveFailed diskID err))). unfold time.Second in *. lia.
    + eauto.
Qed.

(** X13: under a context that is done at some instant, [RemoveDisk]
    returns, whatever the engine answers: one iteration for every five
    seconds between the call and that instant, and two more, are enough,
    and further iterations change nothing. *)
Theorem RemoveDisk_returns_under_deadline :
  forall (ctx : context.Context) (diskID : string) (st : State) (cancelled : N),
    context.doneAt ctx = Some cancelled ->
    exists r st',
      forall extra : nat,
        RemoveDisk (N.to_nat ((cancelled - clock st) / (5 * time.Second)) + 2 + extra)
          ctx diskID st
        = Returned r st'.
Proof.
  intros ctx diskID st cancelled Hdone.
  destruct (RemoveDisk_loop_returns
              (N.to_nat ((cancelled - clock st) / (5 * time.Second)) + 1)
              ctx diskID cancelled Hdone None st) as (r & st' & Hrun).
  { rewrite Nat2N.inj_add, N2Nat.id. simpl (N.of_nat 1).
    pose proof (N.mul_succ_div_gt (cancelled - clock st) (5 * time.Second)
                  ltac:(discriminate)) as Hdiv.
    lia. }
  exists r, st'. intros extra. unfold RemoveDisk.
  replace (N.to_nat ((cancelled - clock st) / (5 * time.Second)) + 2 + extra)%nat
    with (S (N.to_nat ((cancelled - clock st) / (5 * time.Second)) + 1) + extra)%nat
    by lia.
  now apply RemoveDisk_loop_fuel.
Qed.

Lemma RemoveDisk_loop_pacing (fuel : nat) (ctx : context.Context) (diskID : string)
    (lastError : option error) (st : State) :
  exists a w : nat,
    attempts (events (stateOf (RemoveDisk_loop fuel ctx diskID lastError st)))
    = attempts (events st) + a
    /\ waits (events (stateOf (RemoveDisk_loop fuel ctx diskID lastError st)))
       = waits (events st) + w
    /\ match RemoveDisk_loop fuel ctx diskID lastError st with
       | Returned None _ => a = w + 1
       | Returned (Some _) _ => a = w /\ 1 <= a
       | Running _ _ => a = w /\ a = fuel
       end
    /\ (clock st + 5 * time.Second * N.of_nat (a - 1)
        <= clock (stateOf (RemoveDisk_loop fuel ctx diskID lastError st)))%N.
Proof.
  revert lastError st. induction fuel as [|fuel IH]; intros lastError st.
  - exists 0, 0. simpl. repeat split; lia.
  - cbn [RemoveDisk_loop].
    pose proof (send_clock diskID st) as [Hclk Hev].
    destruct (send diskID st) as [[err|] st1]; simpl in Hclk, Hev.
    2:{ exists 1, 0. simpl. rewrite Hev, attempts_app, waits_app. simpl.
        repeat split; lia. }
    destruct (selectAfterDone_cases (5 * time.Second) ctx st1 eq_refl)
      as [(Hc & Hclock & Hev2 & _) | (Hc & Hev2 & cancelled & _ & Hclock & _)];
      destruct (selectAfterDone _ ctx st1) as [c st2]; cbn [fst snd] in *; subst c.
    + destruct (IH (Some (errRemoveFailed diskID err)) st2) as (a & w & Ha & Hw & Hshape & Hpace).
      exists (S a), (S w). rewrite Ha, Hw, Hev2, Hev.
      rewrite !attempts_app, !waits_app. simpl.
      split; [lia|]. split; [lia|]. split.
      * destruct (RemoveDisk_loop fuel ctx diskID _ st2) as [[e|] s|le s]; lia.
      * destruct a as [|a]; simpl in *; lia.
    + exists 1, 1. simpl. rewrite Hev2, Hev, !attempts_app, !waits_app. simpl.
      repeat split; lia.
Qed.

(** X14: in every run of [RemoveDisk], returned or not, each wait follows
    a request: a run that returns [nil] made one request more than it
    waited, any other made as many requests as it entered [select]s.
    Requests are paced: with [a] requests made, at least [5 (a - 1)]
    seconds have passed since the call. *)
Theorem RemoveDisk_paces_its_requests :
  forall (fuel : nat) (ctx : context.Context) (diskID : string) (st : State),
    exists a w : nat,
      attempts (events (stateOf (RemoveDisk fuel ctx diskID st)))
      = attempts (events st) + a
      /\ waits (events (stateOf (RemoveDisk fuel ctx diskID st)))
         = waits (events st) + w
      /\ match RemoveDisk fuel ctx diskID st with
         | Returned None _ => a = w + 1
         | Returned (Some _) _ => a = w /\ 1 <= a
         | Running _ _ => a = w /\ a = fuel
         end
      /\ (clock st + 5 * time.Second * N.of_nat (a - 1)
          <= clock (stateOf (RemoveDisk fuel ctx diskID st)))%N.
Proof. intros. apply RemoveDisk_loop_pacing. Qed.

Lemma requests_S (c : Connection) (diskID : string) (k : nat) (s : SDKState) :
  requests c diskID (S k) s
  = (snd (fst (RemoveSend c diskID s))
     + fst (requests c diskID k (snd (RemoveSend c diskID s))),
     snd (requests c diskID k (snd (RemoveSend c diskID s))))%N.
Proof.
  simpl. destruct (RemoveSend c diskID s) as [[r took] s1]. simpl.
  now destruct (requests c diskID k s1).
Qed.

Lemma RemoveDisk_loop_after_failures (k : nat) (ctx : context.Context) (diskID : string) :
  forall (fuel : nat) (lastError : option error) (st : State),
    (forall i, i < k ->
       fst (fst (RemoveSend (conn (self st)) diskID
                   (snd (requests (conn (self st)) diskID i (sdk st))))) <> None) ->
    fst (fst (RemoveSend (conn (self st)) diskID
                (snd (requests (conn (self st)) diskID k (sdk st))))) = None ->
    match context.doneAt ctx with
    | None => True
    | Some cancelled =>
        (clock st + fst (requests (conn (self st)) diskID k (sdk st))
         + 5 * time.Second * N.of_nat k < cancelled)%N
    end ->
    exists st',
      RemoveDisk_loop (S k + fuel) ctx diskID lastError st = Returned None st'
      /\ self st' = self st
      /\ sdk st' = snd (requests (conn (self st)) diskID (S k) (sdk st))
      /\ clock st'
         = (clock st + fst (requests (conn (self st)) diskID (S k) (sdk st))
            + 5 * time.Second * N.of_nat k)%N
      /\ attempts (events st') = attempts (events st) + S k
      /\ waits (events st') = waits (events st) + k.
Proof.
  induction k as [|k IH]; intros fuel lastError st Hfail Hok Hlive.
  - destruct (RemoveSend (conn (self st)) diskID (sdk st)) as [[r took] s1] eqn:Hsend.
    simpl in Hok. rewrite Hsend in Hok. simpl in Hok. subst r.
    exists (afterSend diskID None took s1 st). split.
    + now apply RemoveDisk_loop_success.
    + rewrite requests_S, Hsend. simpl. rewrite attempts_app, waits_app. simpl.
      repeat split; lia.
  - destruct (RemoveSend (conn (self st)) diskID (sdk st)) as [[r took] s1] eqn:Hsend.
    destruct r as [err|].
    2:{ exfalso. apply (Hfail 0); [lia|]. simpl. now rewrite Hsend. }
    rewrite requests_S, Hsend in Hok. simpl in Hok.
    rewrite requests_S, Hsend in Hlive. simpl in Hlive.
    change (S (S k) + fuel) with (S (S k + fuel)).
    rewrite (RemoveDisk_loop_failure _ _ _ _ _ _ _ _ Hsend).
    rewrite select_timer
      by (simpl; destruct (context.doneAt ctx); [unfold time.Second in *; lia | exact I]).
    destruct (IH fuel (Some (errRemoveFailed diskID err))
                (afterSelect TimerFired
                   (clock (afterSend diskID (Some err) took s1 st) + 5 * time.Second)
                   (afterSend diskID (Some err) took s1 st)))
      as (st' & Hrun & Hself & Hsdk & Hclock & Hatt & Hwait).
    + intros i Hi. simpl. specialize (Hfail (S i) ltac:(lia)).
      rewrite requests_S, Hsend in Hfail. exact Hfail.
    + simpl. exact Hok.
    + simpl. destruct (context.doneAt ctx); [unfold time.Second in *; lia | exact I].
    + exists st'. split; [exact Hrun|].
      cbn [afterSelect afterSend self sdk clock events] in Hself, Hsdk, Hclock, Hatt, Hwait.
      rewrite Hself, Hsdk, Hclock, Hatt, Hwait.
      rewrite (requests_S _ _ (S k)), Hsend. cbn [fst snd].
      rewrite !attempts_app, !waits_app. cbn [attempts waits].
      repeat split; unfold time.Second in *; lia.
Qed.

(** X15: when the first [k] removal requests fail and the next one
    succeeds, and the context is not done before the [k]-th wait is over,
    [RemoveDisk] returns [nil] after [k + 1] requests and [k] waits of
    five seconds, at the instant of the call plus the time the requests
    took plus [5 k] seconds, and leaves the receiver as it was. *)
Theorem RemoveDisk_succeeds_after_failures :
  forall (k fuel : nat) (ctx : context.Context) (diskID : string) (st : State),
    (forall i, i < k ->
       fst (fst (RemoveSend (conn (self st)) diskID
                   (snd (requests (conn (self st)) diskID i (sdk st))))) <> None) ->
    fst (fst (RemoveSend (conn (self st)) diskID
                (snd (requests (conn (self st)) diskID k (sdk st))))) = None ->
    match context.doneAt ctx with
    | None => True
    | Some cancelled =>
        (clock st + fst (requests (conn (self st)) diskID k (sdk st))
         + 5 * time.Second * N.of_nat k < cancelled)%N
    end ->
    exists st',
      RemoveDisk (S k + fuel) ctx diskID st = Returned None st'
      /\ self st' = self st
      /\ sdk st' = snd (requests (conn (self st)) diskID (S k) (sdk st))
      /\ clock st'
         = (clock st + fst (requests (conn (self st)) diskID (S k) (sdk st))
            + 5 * time.Second * N.of_nat k)%N
      /\ attempts (events st') = attempts (events st) + S k
      /\ waits (events st') = waits (events st) + k.
Proof.
  intros k fuel ctx diskID st. apply RemoveDisk_loop_after_failures.
Qed.

End RetryLoop.

(** The SDK's refusal comes back wrapped, with the refusal as its cause. *)
Lemma New_error_cases_example :
  ConnectionBuildError (errorString "engine unreachable") = MissingTrustConfiguration
  \/ exists cause,
       Unwrap (ConnectionBuildError (errorString "engine unreachable")) = Some cause.
Proof.
  exact (proj2 (New_error_cases (Env := scenario.environment scenario.unreachable)
                  scenario.engineURL "admin@internal" "x" "" [] true ∅ tt
                  (ConnectionBuildError (errorString "engine unreachable"))
                  ltac:(reflexivity))).
Defined.

(** One extra header: the builder carries the map. *)
Lemma New_builder_fields_example :
  exists b : ovirtsdk4.ConnectionBuilder unit,
    ovirtsdk4.password b = Some "x"
    /\ ovirtsdk4.headers b = Some {[ "X-Request-Source" := "console" ]}.
Proof.
  destruct (New_builder_fields (Env := scenario.environment scenario.flaky)
              scenario.engineURL "admin@internal" "x" "" [] true
              {[ "X-Request-Source" := "console" ]} tt
              eq_refl eq_refl (or_intror (or_intror eq_refl)))
    as (b & _ & _ & _ & _ & Hpw & _ & _ & _ & _ & _ & Hhdr).
  exists b. split; [exact Hpw|].
  apply Hhdr. apply map_non_empty_singleton.
Defined.

(** The context is done at 2.25 s, in the middle of the first wait: the
    timeout is returned at that instant. *)
Lemma RemoveDisk_error_only_after_done_example :
  exists cancelled,
    context.doneAt {| context.doneAt := Some 2250000000%N |} = Some cancelled
    /\ (cancelled <= 2250000000)%N.
Proof.
  exact (proj1 (RemoveDisk_error_only_after_done
                  (Env := scenario.environment scenario.hostile) 7
                  {| context.doneAt := Some 2250000000%N |} "disk-1"
                  (scenario.initial scenario.hostile 0)
                  (Some (TimeoutError "disk-1"
                           (Some (errRemoveFailed "disk-1" (errorString "disk is locked")))))
                  (@Build_State (scenario.environment scenario.hostile)
                     (scenario.client scenario.hostile) 2250000000%N 1%nat
                     [ EvRemoveSend "disk-1" (Some (errorString "disk is locked"));
                       EvSelect CtxDone ])
                  ltac:(reflexivity))
           _ eq_refl).
Defined.

(** A deadline of twelve seconds against an engine that always fails:
    four iterations are enough. *)
Lemma RemoveDisk_returns_under_deadline_example :
  exists r st',
    forall extra : nat,
      RemoveDisk (Env := scenario.environment scenario.hostile)
        (N.to_nat ((12000000000 - 0) / (5 * time.Second)) + 2 + extra)
        {| context.doneAt := Some 12000000000%N |} "disk-1"
        (scenario.initial scenario.hostile 0)
      = Returned r st'.
Proof.
  exact (RemoveDisk_returns_under_deadline
           (Env := scenario.environment scenario.hostile)
           {| context.doneAt := Some 12000000000%N |} "disk-1"
           (scenario.initial scenario.hostile 0) 12000000000%N eq_refl).
Defined.

(** Two failures and a success without any deadline. *)
Lemma RemoveDisk_succeeds_after_failures_example :
  exists st',
    RemoveDisk (Env := scenario.environment scenario.flaky) 3
      {| context.doneAt := None |} "disk-1" (scenario.initial scenario.flaky 0)
    = Returned None st'
    /\ clock st' = 10750000000%N
    /\ attempts (events st') = 3
    /\ waits (events st') = 2.
Proof.
  destruct (RemoveDisk_succeeds_after_failures
              (Env := scenario.environment scenario.flaky) 2 0
              {| context.doneAt := None |} "disk-1" (scenario.initial scenario.flaky 0))
    as (st' & Hrun & _ & _ & Hclock & Hatt & Hwait).
  - intros [|[|i]] Hi; [vm_compute; discriminate | vm_compute; discriminate | lia].
  - reflexivity.
  - exact I.
  - exists st'. repeat split; assumption.
Defined.

(* ===================================================================== *)
(** ** What a return of [RemoveDisk] rests on                             *)
(* ===================================================================== *)

Section ReturnCause.
Context `{Env : Environment}.

(** The [select] touches neither the receiver nor the engine. *)
Lemma selectAfterDone_frame (d : N) (ctx : context.Context) (st : State) :
  self (snd (selectAfterDone d ctx st)) = self st
  /\ sdk (snd (selectAfterDone d ctx st)) = sdk st
  /\ events (snd (selectAfterDone d ctx st))
     = (events st ++ [EvSelect (fst (selectAfterDone d ctx st))])%list.
Proof.
  unfold selectAfterDone.
  destruct (context.doneAt ctx) as [cancelled|]; [|repeat split].
  destruct (_ ?= _)%N; repeat split.
Qed.

Lemma requests_step (c : Connection) (diskID : string) (k : nat) (s : SDKState)
    (r : option error) (took : N) (s1 : SDKState) :
  RemoveSend c diskID s = (r, took, s1) ->
  snd (requests c diskID (S k) s) = snd (requests c diskID k s1).
Proof. intros H. rewrite requests_S, H. reflexivity. Qed.

Lemma RemoveDisk_loop_return_cause (fuel : nat) (ctx : context.Context) (diskID : string) :
  forall (lastError : option error) (st : State) (r : option error) (st' : State),
    RemoveDisk_loop fuel ctx diskID lastError st = Returned r st' ->
    exists (k : nat) (answer : option error) (took : N) (evs : list Event),
      RemoveSend (conn (self st)) diskID
        (snd (requests (conn (self st)) diskID k (sdk st)))
      = (answer, took, sdk st')
      /\ attempts (events st') = attempts (events st) + S k
      /\ match answer with
         | None =>
             r = None
             /\ events st' = (events st ++ evs ++ [EvRemoveSend diskID None])%list
         | Some err =>
             r = Some (TimeoutError diskID (Some (errRemoveFailed diskID err)))
             /\ events st'
                = (events st ++ evs
                   ++ [EvRemoveSend diskID (Some err); EvSelect CtxDone])%list
         end.
Proof.
  induction fuel as [|fuel IH]; intros lastError st r st'; [discriminate|].
  destruct (RemoveSend (conn (self st)) diskID (sdk st)) as [[answer took] s1] eqn:Hsend.
  destruct answer as [err|].
  - rewrite (RemoveDisk_loop_failure _ _ _ _ _ _ _ _ Hsend).
    pose proof (selectAfterDone_frame (5 * time.Second) ctx
                  (afterSend diskID (Some err) took s1 st)) as (Hself & Hsdk & Hev).
    destruct (selectAfterDone _ ctx (afterSend diskID (Some err) took s1 st)) as [c st2].
    cbn [fst snd afterSend self sdk events] in Hself, Hsdk, Hev.
    destruct c.
    + intros Hrun.
      destruct (IH _ _ _ _ Hrun) as (k & answer & took' & evs & Hlast & Hatt & Hshape).
      rewrite Hself, Hsdk in Hlast.
      exists (S k), answer, took',
        ([EvRemoveSend diskID (Some err); EvSelect TimerFired] ++ evs)%list.
      split; [now rewrite (requests_step _ _ _ _ _ _ _ Hsend)|].
      rewrite Hev in Hatt, Hshape. rewrite !attempts_app in Hatt. simpl in Hatt.
      split; [lia|].
      destruct answer as [err'|]; destruct Hshape as [-> Hevs]; split; try reflexivity;
        rewrite Hevs, <- !app_assoc; reflexivity.
    + intros [= <- <-].
      exists 0, (Some err), took, []. cbn [requests snd].
      rewrite Hsdk, Hev, !attempts_app. simpl.
      split; [exact Hsend|]. split; [lia|]. split; [reflexivity|].
      now rewrite <- app_assoc.
  - rewrite (RemoveDisk_loop_success _ _ _ _ _ _ _ Hsend).
    intros [= <- <-].
    exists 0, None, took, []. cbn [requests snd afterSend sdk events].
    rewrite attempts_app. simpl.
    split; [exact Hsend|]. split; [lia|]. split; reflexivity.
Qed.

(** X6: a return of [RemoveDisk] rests on the answer of the last removal
    request it made, request [k + 1] sent to the engine as the first [k]
    requests left it: [nil] is returned when that answer is [nil], and
    nothing follows the request; otherwise the timeout error is returned,
    it wraps the error around that very answer, and the request is
    followed by the [select] that found the context done.  So the cause
    of a timeout is never [nil] and never an error no request gave. *)
Theorem RemoveDisk_returns_nil_or_timeout :
  forall (fuel : nat) (ctx : context.Context) (diskID : string) (st : State)
         (r : option error) (st' : State),
    RemoveDisk fuel ctx diskID st = Returned r st' ->
    exists (k : nat) (answer : option error) (took : N) (evs : list Event),
      RemoveSend (conn (self st)) diskID
        (snd (requests (conn (self st)) diskID k (sdk st)))
      = (answer, took, sdk st')
      /\ attempts (events st') = attempts (events st) + S k
      /\ match answer with
         | None =>
             r = None
             /\ events st' = (events st ++ evs ++ [EvRemoveSend diskID None])%list
         | Some err =>
             r = Some (TimeoutError diskID (Some (errRemoveFailed diskID err)))
             /\ events st'
                = (events st ++ evs
                   ++ [EvRemoveSend diskID (Some err); EvSelect CtxDone])%list
             /\ Unwrap (TimeoutError diskID (Some (errRemoveFailed diskID err)))
                = Some (errRemoveFailed diskID err)
             /\ Unwrap (errRemoveFailed diskID err) = Some err
         end.
Proof.
  intros fuel ctx diskID st r st' Hrun.
  destruct (RemoveDisk_loop_return_cause _ _ _ _ _ _ _ Hrun)
    as (k & answer & took & evs & Hlast & Hatt & Hshape).
  exists k, answer, took, evs. split; [exact Hlast|]. split; [exact Hatt|].
  destruct answer as [err|]; [|exact Hshape].
  destruct Hshape as [-> Hevs]. repeat split. exact Hevs.
Qed.

End ReturnCause.

(** Every request is answered with [disk is locked] and the context is
    done at 7 s, during the second wait: the timeout wraps the answer to
    the second request, which is the last entry of the log before the
    [select]. *)
Lemma RemoveDisk_returns_nil_or_timeout_example :
  exists (err : error) (evs : list Event),
    Some (TimeoutError "disk-1"
            (Some (errRemoveFailed "disk-1" (errorString "disk is locked"))))
    = Some (TimeoutError "disk-1" (Some (errRemoveFailed "disk-1" err)))
    /\ [ EvRemoveSend "disk-1" (Some (errorString "disk is locked")); EvSelect TimerFired;
         EvRemoveSend "disk-1" (Some (errorString "disk is locked")); EvSelect CtxDone ]
       = ([] ++ evs ++ [EvRemoveSend "disk-1" (Some err); EvSelect CtxDone])%list.
Proof.
  destruct (RemoveDisk_returns_nil_or_timeout
              (Env := scenario.environment scenario.hostile) 7
              {| context.doneAt := Some 7000000000%N |} "disk-1"
              (scenario.initial scenario.hostile 0)
              (Some (TimeoutError "disk-1"
                       (Some (errRemoveFailed "disk-1" (errorString "disk is locked")))))
              (@Build_State (scenario.environment scenario.hostile)
                 (scenario.client scenario.hostile) 7000000000%N 2%nat
                 [ EvRemoveSend "disk-1" (Some (errorString "disk is locked"));
                   EvSelect TimerFired;
                   EvRemoveSend "disk-1" (Some (errorString "disk is locked"));
                   EvSelect CtxDone ])
              ltac:(reflexivity))
    as (k & answer & took & evs & Hlast & Hatt & Hshape).
  destruct answer as [err|].
  - destruct Hshape as (Hr & Hev & _). exists err, evs. split; assumption.
  - destruct Hshape as [Hr _]. discriminate Hr.
Defined.
